(** * fraclib: trading signals (src/fraclib/types/signals.py)

    A shallow embedding of the [TradingSignal] dataclass, its validation
    ([__post_init__]) and its dictionary codec ([to_dict] / [from_dict]).

    Python values are dynamically typed, so a field of the record and an
    entry of an interchange dictionary hold a [value]: [None], a [bool], an
    [int], a [str], a [Decimal], a naive [datetime] or a member of one of
    the four enumerations.  Binary floats, lists and nested dictionaries are
    outside this universe: what is proved of "every value" is proved of the
    values of this universe.  Strings are sequences of characters with code
    points below 256 (Latin-1), which [ascii] enumerates; an [int] is
    unbounded, and [str] of it is subject to the interpreter's limit of 4300
    digits ([int_max_str_digits]).

    [Decimal] follows the arbitrary-precision reference implementation of
    the standard library ([_pydecimal]): a sign, an unbounded coefficient
    and an unbounded exponent, or an infinity, or a (quiet or signaling) NaN
    with a payload.  [Decimal_str] is [Decimal.__str__] under the default
    context (capitals = 1) and [Decimal_of_str] is the constructor
    [Decimal(str)].  The C implementation of the module stores exponents and
    coefficient lengths in 64 bits and refuses a text whose exponent lies
    beyond 10^18; that bound is not modelled.

    The class statement itself is modelled by [dataclass]: the decorator
    checks the order of the declared fields before it generates [__init__],
    and it refuses the declaration of the module ([message], which has no
    default, follows fields that have one).  The bodies of [__post_init__],
    [to_dict] and [from_dict] are modelled for the class with its fields
    taken as keyword-only, the one reading under which the declaration is
    accepted with the same fields, defaults and methods: [bind_kwargs]
    followed by [__post_init__] is the [__init__] of that class, where
    every field may be given by keyword, the fields that declare a default
    may be left out, and [message] is required.  [TradingSignal_call] is the
    call of the class as the module declares it.

    [to_json] and [from_json] wrap the two codec functions in the [json]
    module, the first with an encoder class that the module does not
    define; they are not modelled. *)

From Stdlib Require Import ZArith NArith QArith String Ascii List Lia.
From Stdlib Require Import DecimalN DecimalPos.
From stdpp Require Import base option list gmap strings.

Local Open Scope Z_scope.
Local Open Scope list_scope.

(** ** Characters and digit strings *)

Abbreviation chars := (list ascii) (only parsing).

Definition is_digit (c : ascii) : bool :=
  let n := N_of_ascii c in ((48 <=? n) && (n <=? 57))%N.

(** [str.isspace] on the code points below 256: tab .. carriage return,
    the four separators 28 .. 31, the space, next line (133) and the
    no-break space (160). *)
Definition is_space (c : ascii) : bool :=
  let n := N_of_ascii c in
  (((9 <=? n) && (n <=? 13)) || ((28 <=? n) && (n <=? 32))
   || (n =? 133) || (n =? 160))%N.

Definition lower (c : ascii) : ascii :=
  let n := N_of_ascii c in
  if ((65 <=? n) && (n <=? 90))%N then ascii_of_N (n + 32) else c.

Fixpoint uint_chars (u : Decimal.uint) : chars :=
  match u with
  | Decimal.Nil => []
  | Decimal.D0 u => "0"%char :: uint_chars u
  | Decimal.D1 u => "1"%char :: uint_chars u
  | Decimal.D2 u => "2"%char :: uint_chars u
  | Decimal.D3 u => "3"%char :: uint_chars u
  | Decimal.D4 u => "4"%char :: uint_chars u
  | Decimal.D5 u => "5"%char :: uint_chars u
  | Decimal.D6 u => "6"%char :: uint_chars u
  | Decimal.D7 u => "7"%char :: uint_chars u
  | Decimal.D8 u => "8"%char :: uint_chars u
  | Decimal.D9 u => "9"%char :: uint_chars u
  end.

(** Reads a string of digits; a character that is no digit is skipped
    (the callers only pass strings of digits). *)
Fixpoint chars_uint (cs : chars) : Decimal.uint :=
  match cs with
  | [] => Decimal.Nil
  | c :: cs =>
      let u := chars_uint cs in
      match N_of_ascii c with
      | 48%N => Decimal.D0 u
      | 49%N => Decimal.D1 u
      | 50%N => Decimal.D2 u
      | 51%N => Decimal.D3 u
      | 52%N => Decimal.D4 u
      | 53%N => Decimal.D5 u
      | 54%N => Decimal.D6 u
      | 55%N => Decimal.D7 u
      | 56%N => Decimal.D8 u
      | 57%N => Decimal.D9 u
      | _ => u
      end
  end.

(** [str(n)] for a natural number and [int(s)] for a string of digits. *)
Definition digits_of_N (n : N) : chars := uint_chars (N.to_uint n).
Definition int_of_digits (cs : chars) : N := N.of_uint (chars_uint cs).

(** [str(n)] for an integer. *)
Definition int_str (n : Z) : chars :=
  (if n <? 0 then ["-"%char] else []) ++ digits_of_N (Z.abs_N n).

(** ["%+d" % n] *)
Definition format_signed (n : Z) : chars :=
  (if n <? 0 then "-"%char else "+"%char) :: digits_of_N (Z.abs_N n).

(** ["%0<w>d" % n] for a natural number. *)
Definition zero_pad (w : nat) (n : N) : chars :=
  let ds := digits_of_N n in
  replicate (w - length ds)%nat "0"%char ++ ds.

Fixpoint span_digits (cs : chars) : chars * chars :=
  match cs with
  | [] => ([], [])
  | c :: r =>
      if is_digit c then let '(ds, r') := span_digits r in (c :: ds, r')
      else ([], cs)
  end.

Fixpoint lstrip (cs : chars) : chars :=
  match cs with
  | c :: r => if is_space c then lstrip r else cs
  | [] => []
  end.

(** [s.strip()] *)
Definition strip (cs : chars) : chars := rev (lstrip (rev (lstrip cs))).

(** [s.replace("_", "")] *)
Definition remove_underscores (cs : chars) : chars :=
  filter (fun c => c <> "_"%char) cs.

Definition chars_of (s : string) : chars := list_ascii_of_string s.
Definition str_of (cs : chars) : string := string_of_list_ascii cs.

(** A character that [strip] and [replace] leave alone, and a string that
    does not start with a digit. *)
Definition plain (c : ascii) : Prop := is_space c = false /\ c <> "_"%char.

Definition stops (cs : chars) : Prop :=
  match cs with [] => True | c :: _ => is_digit c = false end.

(** ** decimal.Decimal *)

Inductive Decimal : Type :=
| Finite (sign : bool) (coefficient : N) (exponent : Z)
| Infinity (sign : bool)
| NaN (sign : bool) (signaling : bool) (payload : N).

Definition sign_chars (s : bool) : chars := if s then ["-"%char] else [].

Definition Decimal_sign (d : Decimal) : bool :=
  match d with Finite s _ _ | Infinity s | NaN s _ _ => s end.

(** The same value with another sign. *)
Definition with_sign (sg : bool) (d : Decimal) : Decimal :=
  match d with
  | Finite _ c e => Finite sg c e
  | Infinity _ => Infinity sg
  | NaN _ sig p => NaN sg sig p
  end.

(** [Decimal.__str__], after the sign: the scientific string of a finite
    number, or the name of a special value. *)
Definition unsigned_chars (d : Decimal) : chars :=
  match d with
  | Infinity _ => chars_of "Infinity"
  | NaN _ sig p =>
      chars_of (if sig then "sNaN" else "NaN")
        ++ (if (p =? 0)%N then [] else digits_of_N p)
  | Finite _ c e =>
      let int_ := digits_of_N c in
      let len := Z.of_nat (length int_) in
      let leftdigits := e + len in
      let dotplace :=
        if (e <=? 0) && (-6 <? leftdigits) then leftdigits else 1 in
      let '(intpart, fracpart) :=
        if dotplace <=? 0 then
          (["0"%char],
           "."%char :: replicate (Z.to_nat (- dotplace)) "0"%char ++ int_)
        else if len <=? dotplace then
          (int_ ++ replicate (Z.to_nat (dotplace - len)) "0"%char, [])
        else
          (take (Z.to_nat dotplace) int_,
           "."%char :: drop (Z.to_nat dotplace) int_) in
      let exp :=
        if leftdigits =? dotplace then []
        else "E"%char :: format_signed (leftdigits - dotplace) in
      intpart ++ fracpart ++ exp
  end.

Definition Decimal_chars (d : Decimal) : chars :=
  sign_chars (Decimal_sign d) ++ unsigned_chars d.

Definition Decimal_str (d : Decimal) : string := str_of (Decimal_chars d).

(** [c] at the head of the string, and what follows it. *)
Definition eat (c : ascii) (cs : chars) : option chars :=
  match cs with
  | c' :: r => if decide (c' = c) then Some r else None
  | [] => None
  end.

Fixpoint eat_all (p cs : chars) : option chars :=
  match p with
  | [] => Some cs
  | c :: p => r ← eat c cs; eat_all p r
  end.

(** An optional sign; [true] is the minus sign. *)
Definition split_sign (cs : chars) : bool * chars :=
  match eat "-"%char cs with
  | Some r => (true, r)
  | None =>
      match eat "+"%char cs with
      | Some r => (false, r)
      | None => (false, cs)
      end
  end.

(** The exponent part of a numeric string, up to the end of the string:
    nothing, or [E], an optional sign and at least one digit. *)
Definition parse_exp (cs : chars) : option Z :=
  match cs with
  | [] => Some 0
  | c :: r =>
      if decide (lower c = "e"%char) then
        let '(neg, r1) := split_sign r in
        let '(ds, r2) := span_digits r1 in
        match ds, r2 with
        | _ :: _, [] =>
            let n := Z.of_N (int_of_digits ds) in
            Some (if neg : bool then - n else n)
        | _, _ => None
        end
      else None
  end.

(** [Inf], [Infinity], [NaN<digits>] or [sNaN<digits>], in any case. *)
Definition parse_special (sign : bool) (cs : chars) : option Decimal :=
  let l := map lower cs in
  if decide (l = chars_of "inf" \/ l = chars_of "infinity") then
    Some (Infinity sign)
  else
    let '(sig, l1) :=
      match eat "s"%char l with
      | Some r => (true, r)
      | None => (false, l)
      end in
    r ← eat_all (chars_of "nan") l1;
    let '(ds, r') := span_digits r in
    match r' with
    | [] => Some (NaN sign sig (int_of_digits ds))
    | _ => None
    end.

(** The numeric-string grammar of the [decimal] module, after the sign:
    digits with an optional fraction and an optional exponent, at least one
    digit before the exponent; or else one of the special values. *)
Definition parse_unsigned (sign : bool) (cs : chars) : option Decimal :=
  let '(intpart, r1) := span_digits cs in
  let '(fracpart, r2) :=
    match eat "."%char r1 with
    | Some r1' => span_digits r1'
    | None => ([], r1)
    end in
  match intpart ++ fracpart with
  | [] => parse_special sign cs
  | ds =>
      e ← parse_exp r2;
      Some (Finite sign (int_of_digits ds) (e - Z.of_nat (length fracpart)))
  end.

Definition parse_decimal (cs : chars) : option Decimal :=
  let '(sign, r) := split_sign (remove_underscores (strip cs)) in
  parse_unsigned sign r.

(** The numeric value of a finite decimal, as a fraction. *)
Definition Finite_Q (s : bool) (c : N) (e : Z) : Q :=
  let n := if s then - Z.of_N c else Z.of_N c in
  if 0 <=? e then inject_Z (n * 10 ^ e) else Qmake n (Z.to_pos (10 ^ (- e))).

(** ** datetime.datetime (naive) *)

Record datetime : Type := mk_datetime {
  year : N; month : N; day : N;
  hour : N; minute : N; second : N; microsecond : N
}.

(** [datetime.isoformat(sep)] with the default [timespec='auto']: the
    microseconds are printed only when they are not zero. *)
Definition isoformat (sep : ascii) (t : datetime) : chars :=
  zero_pad 4 (year t) ++ "-"%char :: zero_pad 2 (month t)
    ++ "-"%char :: zero_pad 2 (day t) ++ sep :: zero_pad 2 (hour t)
    ++ ":"%char :: zero_pad 2 (minute t) ++ ":"%char :: zero_pad 2 (second t)
    ++ (if (microsecond t =? 0)%N then []
        else "."%char :: zero_pad 6 (microsecond t)).

(** ** The enumerations *)

Inductive TradeType : Type := PERP | SPOT | EVM.
Inductive SignalType : Type := TRADE.
Inductive Side : Type := BUY | SELL.
Inductive OrderType : Type := MARKET | LIMIT | STOP_LOSS | TAKE_PROFIT.

(** [member.value]; every member's name is spelled like its value. *)
Definition TradeType_value (m : TradeType) : string :=
  match m with PERP => "PERP" | SPOT => "SPOT" | EVM => "EVM" end.
Definition SignalType_value (m : SignalType) : string :=
  match m with TRADE => "TRADE" end.
Definition Side_value (m : Side) : string :=
  match m with BUY => "BUY" | SELL => "SELL" end.
Definition OrderType_value (m : OrderType) : string :=
  match m with
  | MARKET => "MARKET" | LIMIT => "LIMIT"
  | STOP_LOSS => "STOP_LOSS" | TAKE_PROFIT => "TAKE_PROFIT"
  end.

(** The member of a given name, when there is one. *)
Definition TradeType_members : list TradeType := [PERP; SPOT; EVM].
Definition SignalType_members : list SignalType := [TRADE].
Definition Side_members : list Side := [BUY; SELL].
Definition OrderType_members : list OrderType :=
  [MARKET; LIMIT; STOP_LOSS; TAKE_PROFIT].

Definition member_named {A} (name_of : A -> string) (members : list A)
  (name : string) : option A :=
  find (fun m => bool_decide (name_of m = name)) members.

(** ** Python values *)

Inductive value : Type :=
| VNone
| VBool (b : bool)
| VInt (n : Z)
| VStr (s : string)
| VDecimal (d : Decimal)
| VDatetime (t : datetime)
| VSignalType (m : SignalType)
| VTradeType (m : TradeType)
| VSide (m : Side)
| VOrderType (m : OrderType).

#[global] Instance Decimal_eq_dec : EqDecision Decimal.
Proof. solve_decision. Defined.
#[global] Instance datetime_eq_dec : EqDecision datetime.
Proof. solve_decision. Defined.
#[global] Instance TradeType_eq_dec : EqDecision TradeType.
Proof. solve_decision. Defined.
#[global] Instance SignalType_eq_dec : EqDecision SignalType.
Proof. solve_decision. Defined.
#[global] Instance Side_eq_dec : EqDecision Side.
Proof. solve_decision. Defined.
#[global] Instance OrderType_eq_dec : EqDecision OrderType.
Proof. solve_decision. Defined.
#[global] Instance value_eq_dec : EqDecision value.
Proof. solve_decision. Defined.

(** [v is None] *)
Definition is_None (v : value) : bool :=
  match v with VNone => true | _ => false end.

(** [bool(v)] *)
Definition truthy (v : value) : bool :=
  match v with
  | VNone => false
  | VBool b => b
  | VInt n => negb (n =? 0)
  | VStr s => negb (bool_decide (s = ""%string))
  | VDecimal (Finite _ c _) => negb (c =? 0)%N
  | _ => true
  end.

(** [hash(v)] raises [TypeError] for a signaling NaN and for nothing else
    in this universe. *)
Definition hashable (v : value) : bool :=
  match v with
  | VDecimal (NaN _ true _) => false
  | _ => true
  end.

(** ** Exceptions *)

Inductive exn : Type :=
| ValueError (msg : string)
| KeyError (key : value)
| TypeError
| InvalidOperation.

Inductive result (A : Type) : Type :=
| Ok (a : A)
| Err (e : exn).
Arguments Ok {A} a.
Arguments Err {A} e.

#[global] Instance result_ret : MRet result := fun A a => Ok a.
#[global] Instance result_bind : MBind result := fun A B f r =>
  match r with Ok a => f a | Err e => Err e end.

(** [sys.get_int_max_str_digits()], as the interpreter starts, and the
    message of the [ValueError] that [str] raises for an [int] with more
    digits (the sign is not counted). *)
Definition int_max_str_digits : nat := 4300.

Definition int_max_str_digits_msg : string :=
  "Exceeds the limit (4300 digits) for integer string conversion; use sys.set_int_max_str_digits() to increase the limit".

Definition exceeds_max_str_digits (n : Z) : bool :=
  (int_max_str_digits <? length (digits_of_N (Z.abs_N n)))%nat.

(** [str(v)] *)
Definition py_str (v : value) : result string :=
  match v with
  | VNone => Ok "None"%string
  | VBool b => Ok (if b then "True" else "False")%string
  | VInt n =>
      if exceeds_max_str_digits n
      then Err (ValueError int_max_str_digits_msg)
      else Ok (str_of (int_str n))
  | VStr s => Ok s
  | VDecimal d => Ok (Decimal_str d)
  | VDatetime t => Ok (str_of (isoformat " " t))
  | VSignalType m => Ok ("SignalType." +:+ SignalType_value m)
  | VTradeType m => Ok ("TradeType." +:+ TradeType_value m)
  | VSide m => Ok ("Side." +:+ Side_value m)
  | VOrderType m => Ok ("OrderType." +:+ OrderType_value m)
  end.

(** [Decimal(s)] for a string: a string outside the grammar signals
    [ConversionSyntax], which the default context raises as
    [InvalidOperation]. *)
Definition Decimal_of_str (s : string) : result Decimal :=
  match parse_decimal (chars_of s) with
  | Some d => Ok d
  | None => Err InvalidOperation
  end.

(** [Decimal(str(v))] *)
Definition to_Decimal (v : value) : result Decimal :=
  s ← py_str v; Decimal_of_str s.

(** The order of an [int] and a value.  Two numbers compare by value
    ([bool] is a subclass of [int]); an ordering comparison with a NaN
    signals [InvalidOperation]; an [int] and anything else are unordered. *)
Definition int_compare (n : Z) (v : value) : result comparison :=
  match v with
  | VBool b => Ok (n ?= (if b then 1 else 0))
  | VInt m => Ok (n ?= m)
  | VDecimal (Finite s c e) => Ok (Qcompare (inject_Z n) (Finite_Q s c e))
  | VDecimal (Infinity s) => Ok (if s then Gt else Lt)
  | VDecimal (NaN _ _ _) => Err InvalidOperation
  | _ => Err TypeError
  end.

(** [n < v] and [v <= n] for an [int] n. *)
Definition int_lt (n : Z) (v : value) : result bool :=
  c ← int_compare n v; Ok (match c with Lt => true | _ => false end).
Definition le_int (v : value) (n : Z) : result bool :=
  c ← int_compare n v; Ok (match c with Lt => false | _ => true end).

(** ** The TradingSignal dataclass *)

Record TradingSignal : Type := mk_TradingSignal {
  signal_id : value;
  timestamp : value;
  type : value;
  trade_type : value;
  symbol : value;
  side : value;
  order_type : value;
  amount_capital_percent : value;
  fixed_size : value;
  leverage : value;
  limit_price : value;
  stop_price : value;
  take_profit_price : value;
  slippage : value;
  network : value;
  contract_address : value;
  dex_id : value;
  reduce_only : value;
  message : value;
  source : value;
  strategy_name : value;
  timeframe : value;
  exchange : value
}.

#[global] Instance TradingSignal_eq_dec : EqDecision TradingSignal.
Proof. solve_decision. Defined.

(** [[(f, getattr(self, f)) for f in self.__dataclass_fields__]], in the
    order of declaration. *)
Definition items (self : TradingSignal) : list (string * value) :=
  [ ("signal_id", signal_id self);
    ("timestamp", timestamp self);
    ("type", type self);
    ("trade_type", trade_type self);
    ("symbol", symbol self);
    ("side", side self);
    ("order_type", order_type self);
    ("amount_capital_percent", amount_capital_percent self);
    ("fixed_size", fixed_size self);
    ("leverage", leverage self);
    ("limit_price", limit_price self);
    ("stop_price", stop_price self);
    ("take_profit_price", take_profit_price self);
    ("slippage", slippage self);
    ("network", network self);
    ("contract_address", contract_address self);
    ("dex_id", dex_id self);
    ("reduce_only", reduce_only self);
    ("message", message self);
    ("source", source self);
    ("strategy_name", strategy_name self);
    ("timeframe", timeframe self);
    ("exchange", exchange self) ]%string.

(** The names of [__dataclass_fields__]. *)
Definition dataclass_fields : list string :=
  [ "signal_id"; "timestamp"; "type"; "trade_type"; "symbol"; "side";
    "order_type"; "amount_capital_percent"; "fixed_size"; "leverage";
    "limit_price"; "stop_price"; "take_profit_price"; "slippage";
    "network"; "contract_address"; "dex_id"; "reduce_only"; "message";
    "source"; "strategy_name"; "timeframe"; "exchange" ]%string.

Definition percent_msg : string :=
  "amount_capital_percent must be between 0 and 100".
Definition contract_address_msg : string :=
  "contract_address is required for EVM trades".
Definition limit_price_msg : string :=
  "limit_price is required for LIMIT and POST_ONLY orders".
Definition stop_price_msg : string :=
  "stop_price is required for STOP_LOSS orders".
Definition take_profit_price_msg : string :=
  "take_profit_price is required for TAKE_PROFIT orders".

(** [0 < self.amount_capital_percent <= 100]: the second comparison is
    evaluated only when the first one holds. *)
Definition percent_in_range (v : value) : result bool :=
  lo ← int_lt 0 v;
  if lo : bool then le_int v 100 else Ok false.

Definition post_init (self : TradingSignal) : result unit :=
  ok ← percent_in_range (amount_capital_percent self);
  if negb ok then Err (ValueError percent_msg)
  else if bool_decide (trade_type self = VTradeType EVM)
          && negb (truthy (contract_address self))
  then Err (ValueError contract_address_msg)
  else if bool_decide (order_type self ∈ [VOrderType LIMIT])
          && is_None (limit_price self)
  then Err (ValueError limit_price_msg)
  else if bool_decide (order_type self = VOrderType STOP_LOSS)
          && is_None (stop_price self)
  then Err (ValueError stop_price_msg)
  else if bool_decide (order_type self = VOrderType TAKE_PROFIT)
          && is_None (take_profit_price self)
  then Err (ValueError take_profit_price_msg)
  else Ok tt.

(** Direct construction, every argument bound: the generated [__init__]
    stores the arguments and runs [__post_init__]. *)
Definition construct (self : TradingSignal) : result TradingSignal :=
  _ ← post_init self; Ok self.

(** Binding of keyword arguments: a keyword that is no field and a missing
    argument without a default are [TypeError]s. *)
Definition required (kw : gmap string value) (f : string) : result value :=
  match kw !! f with Some v => Ok v | None => Err TypeError end.

Definition optional (kw : gmap string value) (f : string) (dflt : value) : value :=
  default dflt (kw !! f).

Definition bind_kwargs (kw : gmap string value) : result TradingSignal :=
  if bool_decide (dom kw ⊆ list_to_set dataclass_fields) then
    a_signal_id ← required kw "signal_id";
    a_timestamp ← required kw "timestamp";
    a_type ← required kw "type";
    a_trade_type ← required kw "trade_type";
    a_symbol ← required kw "symbol";
    a_side ← required kw "side";
    a_order_type ← required kw "order_type";
    a_amount_capital_percent ← required kw "amount_capital_percent";
    a_message ← required kw "message";
    Ok {| signal_id := a_signal_id;
          timestamp := a_timestamp;
          type := a_type;
          trade_type := a_trade_type;
          symbol := a_symbol;
          side := a_side;
          order_type := a_order_type;
          amount_capital_percent := a_amount_capital_percent;
          fixed_size := optional kw "fixed_size" VNone;
          leverage := optional kw "leverage" VNone;
          limit_price := optional kw "limit_price" VNone;
          stop_price := optional kw "stop_price" VNone;
          take_profit_price := optional kw "take_profit_price" VNone;
          slippage := optional kw "slippage" VNone;
          network := optional kw "network" VNone;
          contract_address := optional kw "contract_address" VNone;
          dex_id := optional kw "dex_id" VNone;
          reduce_only := optional kw "reduce_only" (VBool false);
          message := a_message;
          source := optional kw "source" VNone;
          strategy_name := optional kw "strategy_name" VNone;
          timeframe := optional kw "timeframe" VNone;
          exchange := optional kw "exchange" VNone |}
  else Err TypeError.

(** The call of the class with keyword arguments, [cls] applied to the unpacked [kw]. *)
Definition TradingSignal_new (kw : gmap string value) : result TradingSignal :=
  self ← bind_kwargs kw; construct self.

(** *** The class statement *)

(** The fields in the order of declaration, each with its default when the
    declaration gives one. *)
Definition field_declarations : list (string * option value) :=
  [ ("signal_id", None);
    ("timestamp", None);
    ("type", None);
    ("trade_type", None);
    ("symbol", None);
    ("side", None);
    ("order_type", None);
    ("amount_capital_percent", None);
    ("fixed_size", Some VNone);
    ("leverage", Some VNone);
    ("limit_price", Some VNone);
    ("stop_price", Some VNone);
    ("take_profit_price", Some VNone);
    ("slippage", Some VNone);
    ("network", Some VNone);
    ("contract_address", Some VNone);
    ("dex_id", Some VNone);
    ("reduce_only", Some (VBool false));
    ("message", None);
    ("source", Some VNone);
    ("strategy_name", Some VNone);
    ("timeframe", Some VNone);
    ("exchange", Some VNone) ]%string.

(** The loop of [dataclasses._init_fn] over the positional fields: the
    first field without a default that follows a field with one.  The
    decorator raises [TypeError("non-default argument ... follows default
    argument")] naming that field. *)
Fixpoint non_default_after_default (seen_default : bool)
  (fields : list (string * option value)) : option string :=
  match fields with
  | [] => None
  | (name, Some _) :: fields => non_default_after_default true fields
  | (name, None) :: fields =>
      if seen_default then Some name
      else non_default_after_default seen_default fields
  end.

(** [@dataclass] applied to a class with these fields, none of them
    keyword-only. *)
Definition dataclass (fields : list (string * option value)) : result unit :=
  match non_default_after_default false fields with
  | Some _ => Err TypeError
  | None => Ok tt
  end.

(** Direct construction with the class as the module declares it: the
    class statement runs first, and only a class that was created can be
    called. *)
Definition TradingSignal_call (kw : gmap string value) : result TradingSignal :=
  _ ← dataclass field_declarations; TradingSignal_new kw.

(** *** to_dict *)

(** The second loop of [to_dict]: an enumeration member becomes its value,
    a datetime its ISO form followed by [Z], a Decimal its string. *)
Definition encode_value (v : value) : value :=
  match v with
  | VSignalType m => VStr (SignalType_value m)
  | VTradeType m => VStr (TradeType_value m)
  | VSide m => VStr (Side_value m)
  | VOrderType m => VStr (OrderType_value m)
  | VDatetime t => VStr (str_of (isoformat "T" t ++ ["Z"%char]))
  | VDecimal d => VStr (Decimal_str d)
  | _ => v
  end.

Definition to_dict (self : TradingSignal) : gmap string value :=
  let data : gmap string value :=
    list_to_map (filter (fun kv => is_None kv.2 = false) (items self)) in
  encode_value <$> data.

(** *** from_dict *)

Inductive enum_class : Type :=
| cls_SignalType | cls_TradeType | cls_Side | cls_OrderType.

#[global] Instance enum_class_eq_dec : EqDecision enum_class.
Proof. solve_decision. Defined.

(** The exception of a failed lookup in a dictionary: the key is hashed
    before it is compared, so an unhashable key is a [TypeError] and any
    other key that is not found a [KeyError] carrying the key. *)
Definition lookup_error (key : value) : exn :=
  if hashable key then KeyError key else TypeError.

(** [enum_class[key]]: the lookup of [key] in the dictionary of the
    members' names. *)
Definition enum_getitem (c : enum_class) (key : value) : result value :=
  if hashable key then
    match key with
    | VStr name =>
        let found :=
          match c with
          | cls_SignalType =>
              VSignalType <$> member_named SignalType_value SignalType_members name
          | cls_TradeType =>
              VTradeType <$> member_named TradeType_value TradeType_members name
          | cls_Side => VSide <$> member_named Side_value Side_members name
          | cls_OrderType =>
              VOrderType <$> member_named OrderType_value OrderType_members name
          end in
        match found with Some m => Ok m | None => Err (KeyError key) end
    | _ => Err (KeyError key)
    end
  else Err TypeError.

Definition enum_fields : list (string * enum_class) :=
  [ ("type", cls_SignalType); ("trade_type", cls_TradeType);
    ("side", cls_Side); ("order_type", cls_OrderType) ]%string.

Definition decimal_fields : list string :=
  [ "amount_capital_percent"; "fixed_size"; "leverage"; "limit_price";
    "stop_price"; "take_profit_price"; "slippage" ]%string.

(** The two loops of [from_dict] assign into [data], the dictionary of the
    caller: each returns the dictionary as it leaves it, also when the loop
    is left by an exception. *)
Fixpoint convert_enums (fs : list (string * enum_class))
  (data : gmap string value) : gmap string value * result unit :=
  match fs with
  | [] => (data, Ok tt)
  | (field, cls) :: fs =>
      match data !! field with
      | Some v =>
          match enum_getitem cls v with
          | Ok m => convert_enums fs (<[field := m]> data)
          | Err e => (data, Err e)
          end
      | None => convert_enums fs data
      end
  end.

Fixpoint convert_decimals (fs : list string)
  (data : gmap string value) : gmap string value * result unit :=
  match fs with
  | [] => (data, Ok tt)
  | field :: fs =>
      match data !! field with
      | Some v =>
          if is_None v then convert_decimals fs data
          else
            match to_Decimal v with
            | Ok d => convert_decimals fs (<[field := VDecimal d]> data)
            | Err e => (data, Err e)
            end
      | None => convert_decimals fs data
      end
  end.

(** [TradingSignal.from_dict(data)]: the dictionary after the call, and the
    record or the exception. *)
Definition from_dict (data : gmap string value)
  : gmap string value * result TradingSignal :=
  match convert_enums enum_fields data with
  | (data, Err e) => (data, Err e)
  | (data, Ok _) =>
      match convert_decimals decimal_fields data with
      | (data, Err e) => (data, Err e)
      | (data, Ok _) => (data, TradingSignal_new data)
      end
  end.

(** ** The example of the module's [__main__] block *)

Definition signal_dict : gmap string value :=
  list_to_map
    [ ("signal_id", VStr "123e4567-e89b-12d3-a456-426614174000");
      ("timestamp", VStr "2024-02-19T12:00:00Z");
      ("type", VStr "TRADE");
      ("trade_type", VStr "PERP");
      ("symbol", VStr "ETH-USDT");
      ("side", VStr "BUY");
      ("order_type", VStr "LIMIT");
      ("amount_capital_percent", VStr "10.0");
      ("fixed_size", VStr "1.5");
      ("leverage", VStr "10.0");
      ("limit_price", VStr "2000.0");
      ("message", VStr "ETH breakout trade") ]%string.


(** The record that [from_dict(signal_dict)] builds. *)
Definition signal : TradingSignal :=
  {| signal_id := VStr "123e4567-e89b-12d3-a456-426614174000";
     timestamp := VStr "2024-02-19T12:00:00Z";
     type := VSignalType TRADE;
     trade_type := VTradeType PERP;
     symbol := VStr "ETH-USDT";
     side := VSide BUY;
     order_type := VOrderType LIMIT;
     amount_capital_percent := VDecimal (Finite false 100 (-1));
     fixed_size := VDecimal (Finite false 15 (-1));
     leverage := VDecimal (Finite false 100 (-1));
     limit_price := VDecimal (Finite false 20000 (-1));
     stop_price := VNone;
     take_profit_price := VNone;
     slippage := VNone;
     network := VNone;
     contract_address := VNone;
     dex_id := VNone;
     reduce_only := VBool false;
     message := VStr "ETH breakout trade";
     source := VNone;
     strategy_name := VNone;
     timeframe := VNone;
     exchange := VNone |}.

(** ** The vocabulary of the specification *)

(** The record [self] with the field named [f] holding [v] and every other
    field as it was. *)
Definition with_field (f : string) (v : value) (self : TradingSignal)
  : TradingSignal :=
  let pick (name : string) (old : value) : value :=
    if String.eqb f name then v else old in
  {| signal_id := pick "signal_id" (signal_id self);
     timestamp := pick "timestamp" (timestamp self);
     type := pick "type" (type self);
     trade_type := pick "trade_type" (trade_type self);
     symbol := pick "symbol" (symbol self);
     side := pick "side" (side self);
     order_type := pick "order_type" (order_type self);
     amount_capital_percent :=
       pick "amount_capital_percent" (amount_capital_percent self);
     fixed_size := pick "fixed_size" (fixed_size self);
     leverage := pick "leverage" (leverage self);
     limit_price := pick "limit_price" (limit_price self);
     stop_price := pick "stop_price" (stop_price self);
     take_profit_price := pick "take_profit_price" (take_profit_price self);
     slippage := pick "slippage" (slippage self);
     network := pick "network" (network self);
     contract_address := pick "contract_address" (contract_address self);
     dex_id := pick "dex_id" (dex_id self);
     reduce_only := pick "reduce_only" (reduce_only self);
     message := pick "message" (message self);
     source := pick "source" (source self);
     strategy_name := pick "strategy_name" (strategy_name self);
     timeframe := pick "timeframe" (timeframe self);
     exchange := pick "exchange" (exchange self) |}.

(** Invariant 1: the percentage is a number of the interval (0, 100]. *)
Definition in_percent_range (d : Decimal) : Prop :=
  match d with
  | Finite s c e => (0 < Finite_Q s c e)%Q /\ (Finite_Q s c e <= 100)%Q
  | _ => False
  end.

Definition is_NaN (d : Decimal) : bool :=
  match d with NaN _ _ _ => true | _ => false end.

(** Invariant 2: a contract address that is present and not empty. *)
Definition nonempty_str (v : value) : Prop :=
  exists a : string, v = VStr a /\ a <> ""%string.

Definition absent_or_empty (v : value) : Prop :=
  v = VNone \/ v = VStr "".

(** Invariants 3 to 5: the price that goes with the order type is present. *)
Definition prices_present (self : TradingSignal) : Prop :=
  (order_type self = VOrderType LIMIT -> limit_price self <> VNone)
  /\ (order_type self = VOrderType STOP_LOSS -> stop_price self <> VNone)
  /\ (order_type self = VOrderType TAKE_PROFIT ->
      take_profit_price self <> VNone).

(** Invariant 1 for a record, invariants 2 to 5, and all five. *)
Definition percent_valid (self : TradingSignal) : Prop :=
  exists d, amount_capital_percent self = VDecimal d /\ in_percent_range d.

Definition other_invariants (self : TradingSignal) : Prop :=
  (trade_type self = VTradeType EVM -> nonempty_str (contract_address self))
  /\ prices_present self.

Definition invariants (self : TradingSignal) : Prop :=
  percent_valid self /\ other_invariants self.

(** The checks that precede those on the order type. *)
Definition passes_first_checks (self : TradingSignal) : Prop :=
  percent_in_range (amount_capital_percent self) = Ok true
  /\ (trade_type self = VTradeType EVM -> truthy (contract_address self) = true).

(** The closed set of tag strings of an enumeration. *)
Definition enum_tags (c : enum_class) : list string :=
  match c with
  | cls_SignalType => SignalType_value <$> SignalType_members
  | cls_TradeType => TradeType_value <$> TradeType_members
  | cls_Side => Side_value <$> Side_members
  | cls_OrderType => OrderType_value <$> OrderType_members
  end.

(** A record with a point in time as its timestamp: 2024-02-19 12:00:00. *)
Definition signal_at_noon : TradingSignal :=
  with_field "timestamp" (VDatetime (mk_datetime 2024 2 19 12 0 0 0)) signal.

(** [getattr(self, f)] for a field name [f]. *)
Definition getattr (self : TradingSignal) (f : string) : option value :=
  (list_to_map (items self) : gmap string value) !! f.

(** The default of a field that declares one. *)
Definition field_default (f : string) : value :=
  if String.eqb f "reduce_only" then VBool false else VNone.

(** A well-formed interchange map holds text: the canonical string of a
    decimal for a decimal field, a boolean for [reduce_only], a string for
    any other key. *)
Definition textual (k : string) (v : value) : Prop :=
  if bool_decide (k ∈ decimal_fields) then exists d, v = VStr (Decimal_str d)
  else if bool_decide (k = "reduce_only"%string) then exists b, v = VBool b
  else exists t, v = VStr t.

Definition well_formed (m : gmap string value) : Prop := map_Forall textual m.

(** A failure names the offending field when the field can be read off it:
    [field_of] maps the exception of a failed decoding to an enumerated
    field of the input whose tag is outside its closed set, whenever the
    input has such a field. *)
Definition offending (m : gmap string value) (f : string) : Prop :=
  exists c v, (f, c) ∈ enum_fields /\ m !! f = Some (VStr v) /\ v ∉ enum_tags c.

Definition names_offending_field (field_of : exn -> string) : Prop :=
  forall m e, (from_dict m).2 = Err e -> (exists f, offending m f) ->
    offending m (field_of e).

(** The example map with an unknown tag in one enumerated field. *)
Definition bogus_side : gmap string value :=
  <["side"%string := VStr "BOGUS"]> signal_dict.
Definition bogus_order_type : gmap string value :=
  <["order_type"%string := VStr "BOGUS"]> signal_dict.

(** The example record as an EVM trade, without and with a contract
    address. *)
Definition evm_signal : TradingSignal :=
  with_field "trade_type" (VTradeType EVM) signal.
Definition evm_signal_with_address : TradingSignal :=
  with_field "contract_address" (VStr "0xabc") evm_signal.

(** The example record with another percentage. *)
Definition signal_with_percent (d : Decimal) : TradingSignal :=
  with_field "amount_capital_percent" (VDecimal d) signal.

(** ** Further vocabulary: the shape of records and of failures *)

(** The fields declared without a default. *)
Definition required_fields : list string :=
  [ "signal_id"; "timestamp"; "type"; "trade_type"; "symbol"; "side";
    "order_type"; "amount_capital_percent"; "message" ]%string.

(** [enum_fields.get(k)] *)
Definition enum_class_of (k : string) : option enum_class :=
  (list_to_map enum_fields : gmap string enum_class) !! k.

(** [isinstance(v, c)] for an enumeration [c]. *)
Definition member_of (c : enum_class) (v : value) : Prop :=
  match c, v with
  | cls_SignalType, VSignalType _
  | cls_TradeType, VTradeType _
  | cls_Side, VSide _
  | cls_OrderType, VOrderType _ => True
  | _, _ => False
  end.

(** A value that the loops of [to_dict] neither drop nor convert: not
    [None], no member of an enumeration, no datetime and no Decimal. *)
Definition kept_by_to_dict (v : value) : Prop :=
  v <> VNone
  /\ (forall c, ~ member_of c v)
  /\ (forall t, v <> VDatetime t)
  /\ (forall d, v <> VDecimal d).

(** A value of the type its field is annotated with; the timestamp may
    also be the text that [from_dict] leaves there. *)
Definition annotated (k : string) (v : value) : Prop :=
  match enum_class_of k with
  | Some c => member_of c v
  | None =>
      if bool_decide (k ∈ decimal_fields) then
        (exists d, v = VDecimal d)
        \/ (v = VNone /\ k <> "amount_capital_percent"%string)
      else if bool_decide (k = "reduce_only"%string) then exists b, v = VBool b
      else
        (exists t, v = VStr t)
        \/ (k = "timestamp"%string /\ exists t, v = VDatetime t)
        \/ (v = VNone /\ (k ∉ required_fields))
  end.

Definition typed (self : TradingSignal) : Prop :=
  forall k v, getattr self k = Some v -> annotated k v.

(** The messages of the five checks of [__post_init__]. *)
Definition validation_messages : list string :=
  [ percent_msg; contract_address_msg; limit_price_msg; stop_price_msg;
    take_profit_price_msg ].

(** The example map with a decimal field that is no number, with a native
    integer, with a null entry, and without a required key. *)
Definition not_a_number : gmap string value :=
  <["limit_price"%string := VStr "not-a-number"]> signal_dict.
Definition native_leverage : gmap string value :=
  <["leverage"%string := VInt 3]> signal_dict.
Definition null_stop_price : gmap string value :=
  <["stop_price"%string := VNone]> signal_dict.
Definition no_message : gmap string value :=
  delete "message"%string signal_dict.

(** A native integer of 4301 digits in a decimal field that is converted
    before the unreadable [limit_price], and a signaling NaN in the first
    enumerated field of a map with an unknown tag in the last one. *)
Definition oversize_leverage : gmap string value :=
  <["leverage"%string := VInt (10 ^ 4300)]> not_a_number.
Definition unhashable_type : gmap string value :=
  <["type"%string := VDecimal (NaN false true 0)]> bogus_order_type.

(** * Properties *)

(** A decidable fact about concrete field names, settled by evaluation. *)
Ltac by_evaluation := apply (bool_decide_unpack _); vm_compute; exact I.

(** ** Digit strings *)

Lemma chars_uint_uint_chars (u : Decimal.uint) : chars_uint (uint_chars u) = u.
Proof. induction u; simpl; congruence. Qed.

Lemma int_of_digits_of_N (n : N) : int_of_digits (digits_of_N n) = n.
Proof.
  unfold int_of_digits, digits_of_N.
  rewrite chars_uint_uint_chars. apply DecimalN.Unsigned.of_to.
Qed.

Lemma uint_chars_digits (u : Decimal.uint) : Forall (fun c => is_digit c = true) (uint_chars u).
Proof. induction u; simpl; constructor; auto. Qed.

Lemma digits_of_N_digits (n : N) : Forall (fun c => is_digit c = true) (digits_of_N n).
Proof. apply uint_chars_digits. Qed.

Lemma digits_of_N_nonempty (n : N) : digits_of_N n <> [].
Proof.
  unfold digits_of_N. destruct n as [|p]; simpl; [discriminate|].
  pose proof (DecimalPos.Unsigned.to_uint_nonnil p) as H.
  destruct (Pos.to_uint p); simpl; congruence.
Qed.

Lemma int_of_digits_zero (cs : chars) :
  int_of_digits ("0"%char :: cs) = int_of_digits cs.
Proof. reflexivity. Qed.

Lemma int_of_digits_zeros (k : nat) (cs : chars) :
  int_of_digits (replicate k "0"%char ++ cs) = int_of_digits cs.
Proof. induction k; simpl; [reflexivity|]. now rewrite int_of_digits_zero. Qed.

Lemma zeros_digits (k : nat) : Forall (fun c => is_digit c = true) (replicate k "0"%char).
Proof. induction k; simpl; constructor; auto. Qed.

Lemma span_digits_app (ds r : chars) :
  Forall (fun c => is_digit c = true) ds -> stops r ->
  span_digits (ds ++ r) = (ds, r).
Proof.
  intros Hds Hr. induction Hds as [|c ds Hc _ IH]; cbn [span_digits app].
  - destruct r as [|c r]; [reflexivity|]. cbn [stops] in Hr.
    cbn [span_digits]. now rewrite Hr.
  - now rewrite Hc, IH.
Qed.

(** ** Plain characters: no white space, no underscore *)

Lemma digit_not_space (c : ascii) : is_digit c = true -> is_space c = false.
Proof.
  unfold is_digit, is_space. cbv zeta. intros H.
  apply andb_true_iff in H as [H1 H2].
  apply N.leb_le in H1, H2.
  repeat (apply orb_false_iff; split).
  - apply andb_false_iff. right. apply N.leb_gt. lia.
  - apply andb_false_iff. right. apply N.leb_gt. lia.
  - apply N.eqb_neq. lia.
  - apply N.eqb_neq. lia.
Qed.

Lemma digit_not_char (c c' : ascii) :
  is_digit c = true -> is_digit c' = false -> c <> c'.
Proof. intros H1 H2 ->. congruence. Qed.

Lemma lstrip_plain (cs : chars) :
  Forall (fun c => is_space c = false) cs -> lstrip cs = cs.
Proof. intros [|c r Hc _]; cbn [lstrip]; [reflexivity|]. now rewrite Hc. Qed.

Lemma strip_plain (cs : chars) :
  Forall (fun c => is_space c = false) cs -> strip cs = cs.
Proof.
  intros H. unfold strip. rewrite (lstrip_plain cs H).
  rewrite lstrip_plain by (now apply Forall_rev). apply rev_involutive.
Qed.

Lemma remove_underscores_plain (cs : chars) :
  Forall (fun c => c <> "_"%char) cs -> remove_underscores cs = cs.
Proof.
  induction 1 as [|c r Hc _ IH]; [reflexivity|].
  unfold remove_underscores in *.
  rewrite filter_cons_True by assumption. now rewrite IH.
Qed.


(** ** Reading back what [Decimal.__str__] writes *)

Lemma eat_digit (c c' : ascii) (r : chars) :
  is_digit c' = true -> is_digit c = false -> eat c (c' :: r) = None.
Proof.
  intros H1 H2. cbn [eat]. destruct (decide (c' = c)) as [->|]; congruence.
Qed.

Lemma split_sign_digit (c : ascii) (r : chars) :
  is_digit c = true -> split_sign (c :: r) = (false, c :: r).
Proof.
  intros H. unfold split_sign. now rewrite !eat_digit.
Qed.

Lemma parse_exp_format_signed (n : Z) :
  parse_exp ("E"%char :: format_signed n) = Some n.
Proof.
  unfold parse_exp, format_signed.
  destruct (decide (lower "E" = "e"%char)) as [_|H]; [|now contradict H].
  pose proof (digits_of_N_nonempty (Z.abs_N n)) as Hne.
  pose proof (digits_of_N_digits (Z.abs_N n)) as Hds.
  pose proof (int_of_digits_of_N (Z.abs_N n)) as Hv.
  assert (Hspan : span_digits (digits_of_N (Z.abs_N n)) = (digits_of_N (Z.abs_N n), [])).
  { rewrite <- (app_nil_r (digits_of_N (Z.abs_N n))) at 1.
    now apply span_digits_app. }
  destruct (Z.ltb_spec n 0) as [Hn|Hn].
  - change (split_sign ("-"%char :: ?r)) with (true, r).
    cbv iota beta. rewrite Hspan.
    destruct (digits_of_N (Z.abs_N n)) as [|c ds] eqn:E; [congruence|].
    rewrite Hv. f_equal. lia.
  - change (split_sign ("+"%char :: ?r)) with (false, r).
    cbv iota beta. rewrite Hspan.
    destruct (digits_of_N (Z.abs_N n)) as [|c ds] eqn:E; [congruence|].
    rewrite Hv. f_equal. lia.
Qed.

(** A numeric string with a fraction. *)
Lemma parse_unsigned_fraction (sg : bool) (ip fp ex : chars) (e : Z) :
  Forall (fun c => is_digit c = true) ip ->
  Forall (fun c => is_digit c = true) fp ->
  ip <> [] -> stops ex -> parse_exp ex = Some e ->
  parse_unsigned sg (ip ++ "."%char :: fp ++ ex)
  = Some (Finite sg (int_of_digits (ip ++ fp)) (e - Z.of_nat (length fp))).
Proof.
  intros Hip Hfp Hne Hex He. unfold parse_unsigned.
  rewrite span_digits_app by (assumption || reflexivity).
  cbn [eat]. destruct (decide ("."%char = "."%char)) as [_|H]; [|now contradict H].
  rewrite span_digits_app by assumption.
  destruct ip as [|c ip]; [congruence|].
  cbn [app]. rewrite He. reflexivity.
Qed.

(** A numeric string without a fraction. *)
Lemma parse_unsigned_integer (sg : bool) (ip ex : chars) (e : Z) :
  Forall (fun c => is_digit c = true) ip ->
  ip <> [] -> ex = [] \/ (exists r, ex = "E"%char :: r) -> parse_exp ex = Some e ->
  parse_unsigned sg (ip ++ ex) = Some (Finite sg (int_of_digits ip) e).
Proof.
  intros Hip Hne Hex He. unfold parse_unsigned.
  rewrite span_digits_app; [|assumption|by destruct Hex as [->|[r ->]]].
  assert (eat "."%char ex = None) as -> by (by destruct Hex as [->|[r ->]]).
  rewrite app_nil_r.
  destruct ip as [|c ip]; [congruence|].
  rewrite He. cbn. f_equal. f_equal. lia.
Qed.

Lemma take_drop_digits (k : nat) (ds : chars) :
  Forall (fun c => is_digit c = true) ds ->
  Forall (fun c => is_digit c = true) (take k ds)
  /\ Forall (fun c => is_digit c = true) (drop k ds).
Proof. intros H. split; [by apply Forall_take | by apply Forall_drop]. Qed.

Lemma digit_plain (c : ascii) : is_digit c = true -> plain c.
Proof.
  intros H. split; [by apply digit_not_space|]. by apply digit_not_char.
Qed.

Lemma digits_plain (ds : chars) :
  Forall (fun c => is_digit c = true) ds -> Forall plain ds.
Proof.
  intros H. eapply Forall_impl; [exact H|]. intros c. apply digit_plain.
Qed.

Lemma format_signed_plain (n : Z) : Forall plain (format_signed n).
Proof.
  unfold format_signed. constructor.
  - destruct (n <? 0); by split.
  - apply digits_plain, digits_of_N_digits.
Qed.

(** The digits, point and exponent that [Decimal.__str__] writes for a
    finite number are read back as that number. *)
Lemma parse_unsigned_finite (sg s : bool) (c : N) (e : Z) :
  let body := unsigned_chars (Finite s c e) in
  (exists c0 r, body = c0 :: r /\ is_digit c0 = true)
  /\ Forall plain body
  /\ parse_unsigned sg body = Some (Finite sg c e).
Proof.
  cbn [unsigned_chars].
  pose proof (digits_of_N_nonempty c) as Hne.
  pose proof (digits_of_N_digits c) as Hds.
  pose proof (int_of_digits_of_N c) as Hv.
  set (ds := digits_of_N c) in *.
  set (len := Z.of_nat (length ds)).
  assert (Hlen : 1 <= len).
  { subst len. destruct ds; [congruence|]. cbn [length]. lia. }
  assert (Hhd : exists c0 r, ds = c0 :: r /\ is_digit c0 = true).
  { destruct ds as [|c0 r]; [congruence|]. exists c0, r. split; [done|].
    by inversion Hds. }
  destruct ((e <=? 0) && (-6 <? e + len)) eqn:Hfix.
  - apply andb_true_iff in Hfix as [He Hleft].
    apply Z.leb_le in He. apply Z.ltb_lt in Hleft.
    rewrite Z.eqb_refl.
    destruct (Z.leb_spec (e + len) 0) as [Hdp|Hdp].
    + (* 0.000ddd *)
      rewrite !app_nil_r.
      split; [by eexists _, _|]. split.
      * cbn [app]. constructor; [by split|]. constructor; [by split|].
        apply Forall_app. split; apply digits_plain; auto using zeros_digits.
      * rewrite <- (app_nil_r (replicate _ _ ++ ds)).
        rewrite (parse_unsigned_fraction sg ["0"%char] _ [] 0); try done.
        -- cbn [app]. rewrite int_of_digits_zero, int_of_digits_zeros, Hv.
           do 2 f_equal. rewrite length_app, length_replicate. lia.
        -- by constructor.
        -- apply Forall_app. split; auto using zeros_digits.
    + destruct (Z.leb_spec len (e + len)) as [Hint|Hint].
      * (* ddd *)
        assert (e = 0) as -> by lia.
        replace (Z.to_nat (0 + len - len)) with 0%nat by lia.
        cbn [replicate]. rewrite !app_nil_r.
        split; [done|]. split; [by apply digits_plain|].
        rewrite <- (app_nil_r ds) at 1.
        rewrite (parse_unsigned_integer sg ds [] 0); try done.
        -- by rewrite Hv.
        -- by left.
      * (* dd.ddd *)
        set (k := Z.to_nat (e + len)).
        assert (Hk : (0 < k < length ds)%nat) by lia.
        destruct (take_drop_digits k ds Hds) as [Htake Hdrop].
        rewrite !app_nil_r.
        split.
        { destruct Hhd as (c0 & r & -> & Hc0). exists c0.
          destruct k as [|k]; [lia|]. cbn [take app]. by eexists. }
        split.
        { apply Forall_app. split; [by apply digits_plain|].
          constructor; [by split|]. by apply digits_plain. }
        rewrite <- (app_nil_r (drop k ds)).
        rewrite (parse_unsigned_fraction sg _ _ [] 0); try done.
        -- rewrite take_drop, Hv. do 2 f_equal.
           rewrite length_drop. lia.
        -- destruct ds; [done|]. destruct k; [lia|]. done.
  - (* scientific notation *)
    assert (Hsci : 0 < e \/ e + len <= -6).
    { apply andb_false_iff in Hfix as [H|H]; [left|right]; lia. }
    assert (e + len <> 1) by lia.
    destruct (Z.eqb_spec (e + len) 1) as [|_]; [done|].
    change (1 <=? 0) with false. cbv iota.
    destruct (Z.leb_spec len 1) as [Hone|Hmany].
    + (* dE+n *)
      assert (len = 1) as Hl by lia.
      replace (Z.to_nat (1 - len)) with 0%nat by lia.
      cbn [replicate]. rewrite app_nil_r. cbn [app].
      split.
      { destruct Hhd as (c0 & r & -> & Hc0). by eexists _, _. }
      split.
      { apply Forall_app. split; [by apply digits_plain|].
        constructor; [by split|]. apply format_signed_plain. }
      rewrite (parse_unsigned_integer sg ds _ (e + len - 1)); try done.
      -- rewrite Hv. do 2 f_equal. lia.
      -- right. by eexists.
      -- apply parse_exp_format_signed.
    + (* d.dddE+n *)
      change (Z.to_nat 1) with 1%nat.
      destruct (take_drop_digits 1 ds Hds) as [Htake Hdrop].
      split.
      { destruct Hhd as (c0 & r & -> & Hc0). by eexists _, _. }
      split.
      { apply Forall_app. split; [by apply digits_plain|].
        constructor; [by split|]. apply Forall_app. split; [by apply digits_plain|].
        constructor; [by split|]. apply format_signed_plain. }
      cbn [app].
      rewrite (parse_unsigned_fraction sg _ _ _ (e + len - 1)); try done.
      -- rewrite take_drop, Hv. do 2 f_equal. rewrite length_drop. lia.
      -- destruct ds; done.
      -- apply parse_exp_format_signed.
Qed.

Lemma lower_digit (c : ascii) : is_digit c = true -> lower c = c.
Proof.
  unfold is_digit, lower. cbv zeta. intros H.
  apply andb_true_iff in H as [H1 H2]. apply N.leb_le in H1, H2.
  destruct (N.leb_spec 65 (N_of_ascii c)); [lia|]. reflexivity.
Qed.

Lemma map_lower_digits (ds : chars) :
  Forall (fun c => is_digit c = true) ds -> map lower ds = ds.
Proof.
  induction 1 as [|c ds Hc _ IH]; [reflexivity|].
  cbn [map]. by rewrite lower_digit, IH.
Qed.

Lemma span_digits_stop (c : ascii) (r : chars) :
  is_digit c = false -> span_digits (c :: r) = ([], c :: r).
Proof. intros H. cbn [span_digits]. by rewrite H. Qed.

Lemma eat_eq (c : ascii) (r : chars) : eat c (c :: r) = Some r.
Proof. cbn [eat]. by destruct (decide (c = c)). Qed.

Lemma eat_ne (c c' : ascii) (r : chars) : c' <> c -> eat c (c' :: r) = None.
Proof. intros H. cbn [eat]. by destruct (decide (c' = c)). Qed.

Lemma parse_special_nan (sg sig : bool) (ds : chars) :
  Forall (fun c => is_digit c = true) ds ->
  parse_unsigned sg (chars_of (if sig then "sNaN" else "NaN") ++ ds)
  = Some (NaN sg sig (int_of_digits ds)).
Proof.
  intros Hds.
  assert (Hspan : span_digits ds = (ds, [])).
  { rewrite <- (app_nil_r ds) at 1. by apply span_digits_app. }
  unfold parse_unsigned.
  destruct sig; cbn [chars_of list_ascii_of_string app];
    rewrite span_digits_stop by reflexivity;
    rewrite eat_ne by discriminate;
    cbn [app]; unfold parse_special;
    cbn [map]; rewrite (map_lower_digits ds Hds);
    change (lower "s") with "s"%char;
    change (lower "N") with "n"%char;
    change (lower "a") with "a"%char;
    (destruct (decide _) as [[Hinf|Hinf]|_]; [discriminate Hinf|discriminate Hinf|]).
  - rewrite eat_eq. cbn [chars_of list_ascii_of_string eat_all].
    repeat (rewrite eat_eq; cbn [mbind option_bind]). by rewrite Hspan.
  - rewrite eat_ne by discriminate. cbn [chars_of list_ascii_of_string eat_all].
    repeat (rewrite eat_eq; cbn [mbind option_bind]). by rewrite Hspan.
Qed.

(** What [Decimal.__str__] writes after the sign starts with no sign, holds
    no white space and no underscore, and is read back as the same value. *)
Lemma parse_unsigned_chars (sg : bool) (d : Decimal) :
  let body := unsigned_chars d in
  (exists c0 r, body = c0 :: r /\ c0 <> "-"%char /\ c0 <> "+"%char)
  /\ Forall plain body
  /\ parse_unsigned sg body = Some (with_sign sg d).
Proof.
  destruct d as [s c e|s|s sig p].
  - destruct (parse_unsigned_finite sg s c e) as ((c0 & r & Hb & Hc0) & Hplain & Hparse).
    split; [|by split].
    exists c0, r. split; [done|]. split; by apply digit_not_char.
  - cbn. split; [by eexists _, _|]. split; [|done].
    repeat constructor; done.
  - cbn [unsigned_chars with_sign]. split; [|split].
    + destruct sig; by eexists _, _.
    + apply Forall_app. split.
      * destruct sig; repeat constructor; done.
      * destruct (p =? 0)%N; [constructor|].
        apply digits_plain, digits_of_N_digits.
    + destruct (N.eqb_spec p 0) as [->|Hp].
      * by destruct sig.
      * rewrite parse_special_nan by apply digits_of_N_digits.
        by rewrite int_of_digits_of_N.
Qed.

Lemma with_sign_id (d : Decimal) : with_sign (Decimal_sign d) d = d.
Proof. by destruct d. Qed.

Lemma Decimal_chars_plain (d : Decimal) : Forall plain (Decimal_chars d).
Proof.
  unfold Decimal_chars. apply Forall_app. split.
  - destruct (Decimal_sign d); repeat constructor; done.
  - apply (parse_unsigned_chars false d).
Qed.

(** [Decimal(str(d))] is [d]: sign, digits and exponent (or the special
    value and its payload) are all recovered. *)
Lemma parse_decimal_chars (d : Decimal) :
  parse_decimal (Decimal_chars d) = Some d.
Proof.
  unfold parse_decimal.
  pose proof (Decimal_chars_plain d) as Hplain.
  rewrite strip_plain, remove_underscores_plain;
    [|eapply Forall_impl; [exact Hplain|by intros c [_ ?]]
     |eapply Forall_impl; [exact Hplain|by intros c [? _]]].
  unfold Decimal_chars.
  destruct (parse_unsigned_chars (Decimal_sign d) d)
    as ((c0 & r & Hb & Hm & Hp) & _ & Hparse).
  destruct (Decimal_sign d) eqn:Hs.
  - cbn [sign_chars app]. unfold split_sign. rewrite eat_eq.
    by rewrite Hparse, <- Hs, with_sign_id.
  - cbn [sign_chars app]. unfold split_sign.
    rewrite Hb, !eat_ne by done. rewrite <- Hb.
    by rewrite Hparse, <- Hs, with_sign_id.
Qed.

Lemma chars_of_str_of (cs : chars) : chars_of (str_of cs) = cs.
Proof. apply list_ascii_of_string_of_list_ascii. Qed.

Lemma str_of_chars_of (s : string) : str_of (chars_of s) = s.
Proof. apply string_of_list_ascii_of_string. Qed.

Lemma Decimal_of_str_str (d : Decimal) : Decimal_of_str (Decimal_str d) = Ok d.
Proof.
  unfold Decimal_of_str, Decimal_str.
  by rewrite chars_of_str_of, parse_decimal_chars.
Qed.

Lemma Decimal_str_inj (d1 d2 : Decimal) :
  Decimal_str d1 = Decimal_str d2 -> d1 = d2.
Proof.
  intros H. pose proof (Decimal_of_str_str d1) as H1.
  rewrite H, Decimal_of_str_str in H1. congruence.
Qed.

(** White space beyond ASCII is stripped like the space: here the no-break
    space (160) before and the next-line character (133) after ["10"]. *)
Lemma Decimal_of_str_Latin1_space :
  Decimal_of_str (String (ascii_of_N 160) ("10" +:+ String (ascii_of_N 133) ""))
  = Ok (Finite false 10 0).
Proof. vm_compute. reflexivity. Qed.

(** ** Validation *)

Lemma construct_inv (self s : TradingSignal) : construct self = Ok s -> s = self.
Proof.
  unfold construct. destruct (post_init self); cbn; congruence.
Qed.

Lemma percent_in_range_true (d : Decimal) :
  in_percent_range d -> percent_in_range (VDecimal d) = Ok true.
Proof.
  destruct d as [s c e| |]; cbn [in_percent_range]; [|done..].
  intros [Hlo Hhi]. unfold percent_in_range, int_lt, le_int.
  cbn [int_compare mbind result_bind].
  assert (Qcompare (inject_Z 0) (Finite_Q s c e) = Lt) as ->
    by (by apply Qlt_alt).
  destruct (Qcompare (inject_Z 100) (Finite_Q s c e)) eqn:Hc; try done.
  exfalso. apply (Qlt_not_le (inject_Z 100) (Finite_Q s c e)); [|done].
  by apply Qlt_alt.
Qed.

Lemma percent_in_range_false (d : Decimal) :
  is_NaN d = false -> ~ in_percent_range d ->
  percent_in_range (VDecimal d) = Ok false.
Proof.
  destruct d as [s c e|[|]|]; cbn [in_percent_range is_NaN]; [|done..].
  intros _ Hout. unfold percent_in_range, int_lt, le_int.
  cbn [int_compare mbind result_bind].
  destruct (Qcompare (inject_Z 0) (Finite_Q s c e)) eqn:Hlo; try done.
  destruct (Qcompare (inject_Z 100) (Finite_Q s c e)) eqn:Hc; try done.
  - contradict Hout. split; [by apply Qlt_alt|].
    apply Qle_alt. change 100%Q with (inject_Z 100).
    rewrite <- Qcompare_antisym, Hc. done.
  - contradict Hout. split; [by apply Qlt_alt|].
    apply Qle_alt. change 100%Q with (inject_Z 100).
    rewrite <- Qcompare_antisym, Hc. done.
Qed.

Lemma percent_in_range_NaN (s sig : bool) (p : N) :
  percent_in_range (VDecimal (NaN s sig p)) = Err InvalidOperation.
Proof. reflexivity. Qed.

Lemma percent_in_range_Err (v : value) (e : exn) :
  percent_in_range v = Err e -> e = TypeError \/ e = InvalidOperation.
Proof.
  unfold percent_in_range, int_lt, le_int.
  destruct v as [| | | |[| |]| | | | |]; cbn [int_compare mbind result_bind];
    repeat case_match; intros [= <-]; auto.
Qed.

Lemma bool_decide_LIMIT (v : value) :
  bool_decide (v ∈ [VOrderType LIMIT]) = bool_decide (v = VOrderType LIMIT).
Proof. apply bool_decide_ext, list_elem_of_singleton. Qed.

Lemma is_None_true (v : value) : is_None v = true <-> v = VNone.
Proof. by destruct v. Qed.

Lemma is_None_false (v : value) : is_None v = false <-> v <> VNone.
Proof. by destruct v. Qed.

(** One check of [__post_init__]: it fires when the field holds the
    triggering member and the companion field fails its test. *)
Lemma check_fires (P : Prop) `{Decision P} (b : bool) :
  bool_decide P && b = false <-> (P -> b = false).
Proof.
  case_bool_decide; cbn [andb]; split; try done; auto.
Qed.

(** [__post_init__] accepts exactly the records that pass its five checks. *)
Lemma post_init_Ok (self : TradingSignal) :
  post_init self = Ok tt <->
  percent_in_range (amount_capital_percent self) = Ok true
  /\ (trade_type self = VTradeType EVM -> truthy (contract_address self) = true)
  /\ (order_type self = VOrderType LIMIT -> limit_price self <> VNone)
  /\ (order_type self = VOrderType STOP_LOSS -> stop_price self <> VNone)
  /\ (order_type self = VOrderType TAKE_PROFIT -> take_profit_price self <> VNone).
Proof.
  unfold post_init. rewrite bool_decide_LIMIT.
  destruct (percent_in_range _) as [[|]|e]; cbn [mbind result_bind negb];
    [|split; [done|by intros [[=] _]]..].
  setoid_rewrite <- is_None_false.
  destruct (bool_decide _ && negb _) eqn:H1;
    [split; [done|]; intros (_ & H & _); apply andb_true_iff in H1 as [H1 H1'];
     apply bool_decide_eq_true in H1; specialize (H H1); by rewrite H in H1'|].
  destruct (bool_decide _ && is_None (limit_price self)) eqn:H2;
    [split; [done|]; intros (_ & _ & H & _); apply andb_true_iff in H2 as [H2 H2'];
     apply bool_decide_eq_true in H2; specialize (H H2); congruence|].
  destruct (bool_decide _ && is_None (stop_price self)) eqn:H3;
    [split; [done|]; intros (_ & _ & _ & H & _); apply andb_true_iff in H3 as [H3 H3'];
     apply bool_decide_eq_true in H3; specialize (H H3); congruence|].
  destruct (bool_decide _ && is_None (take_profit_price self)) eqn:H4;
    [split; [done|]; intros (_ & _ & _ & _ & H); apply andb_true_iff in H4 as [H4 H4'];
     apply bool_decide_eq_true in H4; specialize (H H4); congruence|].
  split; [intros _|done].
  rewrite check_fires in H1, H2, H3, H4.
  split; [done|]. split; [|done].
  intros H. specialize (H1 H). by destruct (truthy _).
Qed.

Lemma construct_Ok (self s : TradingSignal) :
  construct self = Ok s <-> post_init self = Ok tt /\ s = self.
Proof.
  unfold construct. destruct (post_init self) as [[]|e]; cbn [mbind result_bind].
  - split; [by intros [= <-]|by intros [_ ->]].
  - split; [done|by intros [[=] _]].
Qed.

Lemma construct_Err (self : TradingSignal) (e : exn) :
  construct self = Err e <-> post_init self = Err e.
Proof.
  unfold construct. destruct (post_init self) as [[]|e']; cbn [mbind result_bind];
    split; congruence.
Qed.

(** The first check is the only one that reports the percentage. *)
Lemma post_init_percent_error (self : TradingSignal) :
  post_init self = Err (ValueError percent_msg) <->
  percent_in_range (amount_capital_percent self) = Ok false.
Proof.
  unfold post_init.
  destruct (percent_in_range _) as [[|]|e] eqn:Hp; cbn [mbind result_bind negb].
  - split; [|done]. repeat case_match; done.
  - done.
  - split; [|done]. intros [= ->].
    by destruct (percent_in_range_Err _ _ Hp).
Qed.

Lemma post_init_contract_address_error (self : TradingSignal) :
  percent_in_range (amount_capital_percent self) = Ok true ->
  trade_type self = VTradeType EVM ->
  truthy (contract_address self) = false ->
  post_init self = Err (ValueError contract_address_msg).
Proof.
  intros Hp Ht Hc. unfold post_init. rewrite Hp, Ht, Hc.
  cbn [mbind result_bind negb]. by rewrite bool_decide_eq_true_2.
Qed.

Lemma first_checks_pass (self : TradingSignal) :
  passes_first_checks self ->
  (bool_decide (trade_type self = VTradeType EVM)
   && negb (truthy (contract_address self))) = false.
Proof.
  intros [_ H]. apply check_fires. intros Ht. by rewrite (H Ht).
Qed.

Lemma post_init_limit_price_error (self : TradingSignal) :
  passes_first_checks self ->
  order_type self = VOrderType LIMIT -> limit_price self = VNone ->
  post_init self = Err (ValueError limit_price_msg).
Proof.
  intros Hf Ho Hl. unfold post_init.
  rewrite (first_checks_pass _ Hf). destruct Hf as [-> _].
  rewrite bool_decide_LIMIT, Ho, Hl. cbn [mbind result_bind negb].
  by rewrite bool_decide_eq_true_2.
Qed.

Lemma post_init_stop_price_error (self : TradingSignal) :
  passes_first_checks self ->
  order_type self = VOrderType STOP_LOSS -> stop_price self = VNone ->
  post_init self = Err (ValueError stop_price_msg).
Proof.
  intros Hf Ho Hl. unfold post_init.
  rewrite (first_checks_pass _ Hf). destruct Hf as [-> _].
  rewrite bool_decide_LIMIT, Ho, Hl. cbn [mbind result_bind negb].
  rewrite (bool_decide_eq_false_2 (VOrderType STOP_LOSS = VOrderType LIMIT)) by done.
  by rewrite bool_decide_eq_true_2.
Qed.

Lemma post_init_take_profit_price_error (self : TradingSignal) :
  passes_first_checks self ->
  order_type self = VOrderType TAKE_PROFIT -> take_profit_price self = VNone ->
  post_init self = Err (ValueError take_profit_price_msg).
Proof.
  intros Hf Ho Hl. unfold post_init.
  rewrite (first_checks_pass _ Hf). destruct Hf as [-> _].
  rewrite bool_decide_LIMIT, Ho, Hl. cbn [mbind result_bind negb].
  rewrite (bool_decide_eq_false_2 (VOrderType TAKE_PROFIT = VOrderType LIMIT)) by done.
  rewrite (bool_decide_eq_false_2 (VOrderType TAKE_PROFIT = VOrderType STOP_LOSS)) by done.
  by rewrite bool_decide_eq_true_2.
Qed.

Lemma post_init_Ok_first_checks (self : TradingSignal) :
  post_init self = Ok tt -> passes_first_checks self.
Proof. intros H. apply post_init_Ok in H as (? & ? & _). by split. Qed.

Lemma nonempty_str_truthy (v : value) : nonempty_str v -> truthy v = true.
Proof.
  intros (a & -> & Ha). cbn [truthy]. by rewrite bool_decide_eq_false_2.
Qed.

Lemma absent_or_empty_falsy (v : value) : absent_or_empty v -> truthy v = false.
Proof. by intros [->| ->]. Qed.

Lemma invariants_post_init (self : TradingSignal) :
  invariants self -> post_init self = Ok tt.
Proof.
  intros ((d & Hd & Hr) & Hca & Hl & Hs & Ht). apply post_init_Ok.
  rewrite Hd. split; [by apply percent_in_range_true|].
  split; [|done]. intros H. by apply nonempty_str_truthy, Hca.
Qed.

(** Every field passed by keyword reaches the record unchanged. *)
Lemma bind_kwargs_items (self : TradingSignal) :
  bind_kwargs (list_to_map (items self)) = Ok self.
Proof. destruct self. vm_compute. reflexivity. Qed.

(** ** to_dict *)

Lemma items_fields (self : TradingSignal) : (items self).*1 = dataclass_fields.
Proof. reflexivity. Qed.

Lemma dataclass_fields_NoDup : NoDup dataclass_fields.
Proof. apply (bool_decide_unpack _). by vm_compute. Qed.

Lemma lookup_list_to_map_filter (l : list (string * value)) (k : string) :
  NoDup l.*1 ->
  (list_to_map (filter (fun kv => is_None kv.2 = false) l) : gmap string value) !! k
  = (list_to_map l : gmap string value) !! k
      ≫= (fun v => if is_None v then None else Some v).
Proof.
  induction l as [|[k0 v0] l IH]; intros Hnd.
  - rewrite filter_nil. cbn [list_to_map foldr]. by rewrite lookup_empty.
  - cbn [fmap list_fmap fst] in Hnd.
    apply NoDup_cons in Hnd as [Hk0 Hnd]. cbn [list_to_map foldr] in *.
    destruct (is_None v0) eqn:Hv0.
    + rewrite filter_cons_False by (cbn; congruence).
      rewrite IH by done. destruct (decide (k = k0)) as [->|Hne].
      * rewrite lookup_insert_eq. cbn. rewrite Hv0.
        rewrite (not_elem_of_list_to_map_1 l k0) by done. done.
      * by rewrite lookup_insert_ne.
    + rewrite filter_cons_True by done. cbn [list_to_map foldr].
      destruct (decide (k = k0)) as [->|Hne].
      * rewrite !lookup_insert_eq. cbn. by rewrite Hv0.
      * rewrite !lookup_insert_ne by done. by apply IH.
Qed.

(** An entry of the encoded dictionary: the field, unless it is [None],
    through [encode_value]. *)
Lemma lookup_to_dict (self : TradingSignal) (k : string) :
  to_dict self !! k
  = getattr self k ≫= (fun v => if is_None v then None else Some (encode_value v)).
Proof.
  unfold to_dict, getattr. rewrite lookup_fmap, lookup_list_to_map_filter.
  - destruct (_ !! k) as [v|]; [|done]. cbn. by destruct (is_None v).
  - rewrite items_fields. apply dataclass_fields_NoDup.
Qed.

Lemma getattr_items (self : TradingSignal) (k : string) (v : value) :
  getattr self k = Some v <-> (k, v) ∈ items self.
Proof.
  unfold getattr. symmetry. apply elem_of_list_to_map.
  rewrite items_fields. apply dataclass_fields_NoDup.
Qed.

Lemma getattr_None (self : TradingSignal) (k : string) :
  getattr self k = None <-> k ∉ dataclass_fields.
Proof.
  unfold getattr. rewrite <- (items_fields self).
  symmetry. apply not_elem_of_list_to_map.
Qed.

Lemma encode_value_not_None (v : value) : v <> VNone -> encode_value v <> VNone.
Proof. by destruct v. Qed.

(** ** from_dict *)

(** A lookup that fails raises the exception of the key: [KeyError] with
    the key, or [TypeError] when the key cannot be hashed. *)
Lemma enum_getitem_Err (c : enum_class) (v : value) (e : exn) :
  enum_getitem c v = Err e -> e = lookup_error v.
Proof.
  unfold enum_getitem, lookup_error. destruct (hashable v); [|by intros [= <-]].
  destruct v; try (by intros [= <-]).
  destruct c; case_match; by intros [= <-].
Qed.

Lemma enum_getitem_Ok_str (c : enum_class) (key x : value) :
  enum_getitem c key = Ok x -> exists name, key = VStr name.
Proof.
  unfold enum_getitem. destruct (hashable key); [|done].
  destruct key; try done. by eexists.
Qed.

(** [Decimal(str(v))] on a string, on a Decimal, and when it fails. *)
Lemma to_Decimal_str (s : string) : to_Decimal (VStr s) = Decimal_of_str s.
Proof. reflexivity. Qed.

Lemma to_Decimal_Decimal (d : Decimal) : to_Decimal (VDecimal d) = Ok d.
Proof. apply Decimal_of_str_str. Qed.

Lemma Decimal_of_str_Err (s : string) (e : exn) :
  Decimal_of_str s = Err e -> e = InvalidOperation.
Proof. unfold Decimal_of_str. destruct (parse_decimal _); by intros [= <-]. Qed.

Lemma to_Decimal_Err (v : value) (e : exn) :
  to_Decimal v = Err e ->
  e = InvalidOperation
  \/ (e = ValueError int_max_str_digits_msg
      /\ exists n, v = VInt n /\ exceeds_max_str_digits n = true).
Proof.
  unfold to_Decimal. destruct v; cbn [py_str mbind result_bind];
    try (intros H; left; by apply Decimal_of_str_Err in H).
  destruct (exceeds_max_str_digits n) eqn:Hlen.
  - intros [= <-]. right. split; [done|]. by exists n.
  - intros H; left; by apply Decimal_of_str_Err in H.
Qed.

Lemma enum_fields_NoDup : NoDup enum_fields.*1.
Proof. apply (bool_decide_unpack _). by vm_compute. Qed.

Lemma decimal_fields_NoDup : NoDup decimal_fields.
Proof. apply (bool_decide_unpack _). by vm_compute. Qed.

(** The first loop keeps the keys, leaves the other entries alone, and puts
    a member where it found the name of one. *)
Lemma convert_enums_spec (fs : list (string * enum_class))
  (m m' : gmap string value) (r : result unit) :
  NoDup fs.*1 -> convert_enums fs m = (m', r) ->
  dom m' = dom m
  /\ (forall k, k ∉ fs.*1 -> m' !! k = m !! k)
  /\ (forall k c, (k, c) ∈ fs ->
        m' !! k = m !! k
        \/ exists v x, m !! k = Some v /\ enum_getitem c v = Ok x /\ m' !! k = Some x)
  /\ (r = Ok tt -> forall k c v, (k, c) ∈ fs -> m !! k = Some v ->
        exists x, enum_getitem c v = Ok x /\ m' !! k = Some x).
Proof.
  revert m. induction fs as [|[f c] fs IH]; intros m Hnd Hrun.
  - cbn in Hrun. injection Hrun as <- <-.
    split; [done|]. split; [done|].
    split; [intros k c Hin; by apply elem_of_nil in Hin|].
    intros _ k c v Hin. by apply elem_of_nil in Hin.
  - cbn [fmap list_fmap fst] in Hnd. apply NoDup_cons in Hnd as [Hf Hnd].
    cbn [convert_enums] in Hrun.
    destruct (m !! f) as [v|] eqn:Hmf.
    + destruct (enum_getitem c v) as [x|e] eqn:Hget.
      * destruct (IH _ Hnd Hrun) as (Hdom & Hout & Hin & Hok).
        assert (Hf' : m' !! f = Some x).
        { rewrite Hout by done. apply lookup_insert_eq. }
        split; [rewrite Hdom; apply dom_insert_lookup_L; by rewrite Hmf|].
        split.
        { intros k Hk. apply not_elem_of_cons in Hk as [Hkf Hk].
          rewrite Hout by done. by rewrite lookup_insert_ne. }
        split.
        { intros k c' [[= -> ->]|Hk]%elem_of_cons.
          - right. by exists v, x.
          - assert (k <> f) by (intros ->; apply Hf, list_elem_of_fmap; by exists (f, c')).
            destruct (Hin k c' Hk) as [Heq|(v' & x' & H1 & H2 & H3)].
            + left. rewrite Heq. by apply lookup_insert_ne.
            + right. exists v', x'. by rewrite lookup_insert_ne in H1. }
        intros Hr k c' v' [[= -> ->]|Hk]%elem_of_cons Hv'.
        -- exists x. by simplify_eq.
        -- assert (k <> f) by (intros ->; apply Hf, list_elem_of_fmap; by exists (f, c')).
           apply (Hok Hr k c' v' Hk). by rewrite lookup_insert_ne.
      * injection Hrun as <- <-. split; [done|]. split; [done|].
        split; [by left|]. done.
    + destruct (IH _ Hnd Hrun) as (Hdom & Hout & Hin & Hok).
      split; [done|]. split.
      { intros k Hk. apply not_elem_of_cons in Hk as [_ Hk]. by apply Hout. }
      split.
      { intros k c' [[= -> ->]|Hk]%elem_of_cons; [|by apply Hin].
        left. by apply Hout. }
      intros Hr k c' v' [[= -> ->]|Hk]%elem_of_cons Hv'; [congruence|].
      by apply (Hok Hr k c' v').
Qed.

(** The second loop keeps the keys, leaves the other entries and the [None]
    entries alone, and puts a Decimal where it could read one. *)
Lemma convert_decimals_spec (fs : list string)
  (m m' : gmap string value) (r : result unit) :
  NoDup fs -> convert_decimals fs m = (m', r) ->
  dom m' = dom m
  /\ (forall k, k ∉ fs -> m' !! k = m !! k)
  /\ (forall k, k ∈ fs ->
        m' !! k = m !! k
        \/ exists v d, m !! k = Some v /\ v <> VNone
             /\ to_Decimal v = Ok d /\ m' !! k = Some (VDecimal d))
  /\ (r = Ok tt -> forall k v, k ∈ fs -> m !! k = Some v -> v <> VNone ->
        exists d, to_Decimal v = Ok d /\ m' !! k = Some (VDecimal d)).
Proof.
  revert m. induction fs as [|f fs IH]; intros m Hnd Hrun.
  - cbn in Hrun. injection Hrun as <- <-.
    split; [done|]. split; [done|].
    split; [intros k Hin; by apply elem_of_nil in Hin|].
    intros _ k v Hin. by apply elem_of_nil in Hin.
  - apply NoDup_cons in Hnd as [Hf Hnd].
    cbn [convert_decimals] in Hrun.
    destruct (m !! f) as [v|] eqn:Hmf.
    + destruct (is_None v) eqn:Hv.
      { apply is_None_true in Hv as ->.
        destruct (IH _ Hnd Hrun) as (Hdom & Hout & Hin & Hok).
        split; [done|]. split.
        { intros k Hk. apply not_elem_of_cons in Hk as [_ Hk]. by apply Hout. }
        split.
        { intros k [->|Hk]%elem_of_cons; [|by apply Hin]. left. by apply Hout. }
        intros Hr k v' [->|Hk]%elem_of_cons Hv' Hnn; [congruence|].
        by apply (Hok Hr k v'). }
      apply is_None_false in Hv.
      destruct (to_Decimal v) as [d|e] eqn:Hget.
      * destruct (IH _ Hnd Hrun) as (Hdom & Hout & Hin & Hok).
        assert (Hf' : m' !! f = Some (VDecimal d)).
        { rewrite Hout by done. apply lookup_insert_eq. }
        split; [rewrite Hdom; apply dom_insert_lookup_L; by rewrite Hmf|].
        split.
        { intros k Hk. apply not_elem_of_cons in Hk as [Hkf Hk].
          rewrite Hout by done. by rewrite lookup_insert_ne. }
        split.
        { intros k [->|Hk]%elem_of_cons.
          - right. by exists v, d.
          - assert (k <> f) by (by intros ->).
            destruct (Hin k Hk) as [Heq|(v' & d' & H1 & H2 & H3 & H4)].
            + left. rewrite Heq. by apply lookup_insert_ne.
            + right. exists v', d'. by rewrite lookup_insert_ne in H1. }
        intros Hr k v' [->|Hk]%elem_of_cons Hv' Hnn.
        -- exists d. by simplify_eq.
        -- assert (k <> f) by (by intros ->).
           apply (Hok Hr k v' Hk); [|done]. by rewrite lookup_insert_ne.
      * injection Hrun as <- <-. split; [done|]. split; [done|].
        split; [by left|]. done.
    + destruct (IH _ Hnd Hrun) as (Hdom & Hout & Hin & Hok).
      split; [done|]. split.
      { intros k Hk. apply not_elem_of_cons in Hk as [_ Hk]. by apply Hout. }
      split.
      { intros k [->|Hk]%elem_of_cons; [|by apply Hin]. left. by apply Hout. }
      intros Hr k v' [->|Hk]%elem_of_cons Hv' Hnn; [congruence|].
      by apply (Hok Hr k v').
Qed.

(** The steps of a successful [from_dict]. *)
Lemma from_dict_Ok (m m' : gmap string value) (s : TradingSignal) :
  from_dict m = (m', Ok s) ->
  exists m1, convert_enums enum_fields m = (m1, Ok tt)
    /\ convert_decimals decimal_fields m1 = (m', Ok tt)
    /\ bind_kwargs m' = Ok s /\ post_init s = Ok tt.
Proof.
  unfold from_dict, TradingSignal_new.
  destruct (convert_enums enum_fields m) as [m1 [[]|e1]] eqn:He; [|by intros [=]].
  destruct (convert_decimals decimal_fields m1) as [m2 [[]|e2]] eqn:Hd;
    [|by intros [=]].
  intros [= <- Hnew]. exists m1. split; [done|]. split; [done|].
  destruct (bind_kwargs m2) as [s0|e]; cbn [mbind result_bind] in Hnew; [|done].
  apply construct_Ok in Hnew as [Hpost ->]. done.
Qed.

(** What the call binds to each field: the keyword argument, or else the
    default of the field. *)
Lemma bind_kwargs_Ok (kw : gmap string value) (s : TradingSignal) :
  bind_kwargs kw = Ok s ->
  (forall k, k ∈ dom kw -> k ∈ dataclass_fields)
  /\ (forall k, k ∈ dataclass_fields ->
        getattr s k = Some (default (field_default k) (kw !! k))).
Proof.
  unfold bind_kwargs. case_bool_decide as Hdom; [|done].
  unfold required.
  destruct (kw !! "signal_id"%string) eqn:H1; cbn [mbind result_bind]; [|done].
  destruct (kw !! "timestamp"%string) eqn:H2; cbn [mbind result_bind]; [|done].
  destruct (kw !! "type"%string) eqn:H3; cbn [mbind result_bind]; [|done].
  destruct (kw !! "trade_type"%string) eqn:H4; cbn [mbind result_bind]; [|done].
  destruct (kw !! "symbol"%string) eqn:H5; cbn [mbind result_bind]; [|done].
  destruct (kw !! "side"%string) eqn:H6; cbn [mbind result_bind]; [|done].
  destruct (kw !! "order_type"%string) eqn:H7; cbn [mbind result_bind]; [|done].
  destruct (kw !! "amount_capital_percent"%string) eqn:H8; cbn [mbind result_bind]; [|done].
  destruct (kw !! "message"%string) eqn:H9; cbn [mbind result_bind]; [|done].
  intros [= <-]. split.
  - intros k Hk. apply Hdom in Hk. by apply elem_of_list_to_set in Hk.
  - intros k Hk. unfold dataclass_fields in Hk.
    repeat (apply elem_of_cons in Hk as [->|Hk];
            [first [by rewrite H1|by rewrite H2|by rewrite H3|by rewrite H4
                   |by rewrite H5|by rewrite H6|by rewrite H7|by rewrite H8
                   |by rewrite H9|reflexivity]|]).
    by apply elem_of_nil in Hk.
Qed.

Lemma percent_in_range_true_inv (d : Decimal) :
  percent_in_range (VDecimal d) = Ok true -> in_percent_range d.
Proof.
  destruct d as [s c e|[|]|]; [|done..].
  unfold percent_in_range, int_lt, le_int. cbn [int_compare mbind result_bind].
  destruct (Qcompare (inject_Z 0) (Finite_Q s c e)) eqn:Hlo; try done.
  destruct (Qcompare (inject_Z 100) (Finite_Q s c e)) eqn:Hhi; try done; intros _.
  - split; [by apply Qlt_alt|].
    apply Qle_alt. change 100%Q with (inject_Z 100).
    rewrite <- Qcompare_antisym, Hhi. done.
  - split; [by apply Qlt_alt|].
    apply Qle_alt. change 100%Q with (inject_Z 100).
    rewrite <- Qcompare_antisym, Hhi. done.
Qed.

Lemma other_invariants_post_init (self : TradingSignal) :
  other_invariants self ->
  post_init self = Ok tt <->
  percent_in_range (amount_capital_percent self) = Ok true.
Proof.
  intros [Hca (Hl & Hs & Ht)]. rewrite post_init_Ok. split; [by intros [? _]|].
  intros Hp. split; [done|]. split; [|done].
  intros H. by apply nonempty_str_truthy, Hca.
Qed.

(** ** Construction *)

Lemma invariants_construct (self : TradingSignal) :
  invariants self -> construct self = Ok self.
Proof.
  intros Hinv. apply construct_Ok. split; [|done].
  by apply invariants_post_init.
Qed.

(** The declaration and the model of its constructor agree: the declared
    fields are [dataclass_fields], those without a default are the
    arguments that [bind_kwargs] requires, and each declared default is the
    one that [bind_kwargs] fills in. *)
Lemma field_declarations_fields :
  field_declarations.*1 = dataclass_fields
  /\ (filter (fun d => bool_decide (d.2 = None)) field_declarations).*1
     = required_fields
  /\ (forall f d, (f, Some d) ∈ field_declarations -> field_default f = d).
Proof.
  split; [reflexivity|]. split; [by vm_compute|].
  intros f d Hf. unfold field_declarations in Hf.
  repeat (apply elem_of_cons in Hf as [Heq|Hf];
          [first [discriminate Heq|by injection Heq as -> ->]|]).
  by apply elem_of_nil in Hf.
Qed.

(** C3, the defect: the class statement of the module fails.  [message] is
    declared without a default after fields that have one, which
    [@dataclass] refuses with a [TypeError] when it generates [__init__];
    the class is never created, so direct construction succeeds for no
    arguments at all, and in particular not for the example record, whose
    field values satisfy invariants 1 to 5. *)
Theorem dataclass_rejects_declaration :
  non_default_after_default false field_declarations = Some "message"%string
  /\ dataclass field_declarations = Err TypeError
  /\ (forall kw, TradingSignal_call kw = Err TypeError)
  /\ invariants signal
  /\ TradingSignal_call (list_to_map (items signal)) = Err TypeError.
Proof.
  assert (Hd : dataclass field_declarations = Err TypeError) by reflexivity.
  assert (Hcall : forall kw, TradingSignal_call kw = Err TypeError).
  { intros kw. unfold TradingSignal_call. by rewrite Hd. }
  split; [reflexivity|]. split; [done|]. split; [done|]. split; [|apply Hcall].
  split.
  - exists (Finite false 100 (-1)). split; [reflexivity|].
    split; [by vm_compute|]. by vm_compute.
  - split; [by intros [=]|]. split; [by intros _|]. split; by intros [=].
Qed.

(** With the fields taken as keyword-only, the reading under which the
    class is created, the bodies do what the specification asks of direct
    construction: every combination of field values that satisfies
    invariants 1 to 5 constructs, and the record holds every input value
    unchanged, whether [__post_init__] is run on the bound fields or the
    class is called with keywords. *)
Lemma construct_valid (self : TradingSignal) :
  invariants self ->
  construct self = Ok self
  /\ TradingSignal_new (list_to_map (items self)) = Ok self.
Proof.
  intros Hinv. pose proof (invariants_construct self Hinv) as Hc.
  split; [done|]. unfold TradingSignal_new.
  by rewrite bind_kwargs_items.
Qed.

Lemma signal_percent_valid : percent_valid signal.
Proof.
  exists (Finite false 100 (-1)). split; [reflexivity|].
  split; [by vm_compute|]. by vm_compute.
Defined.

Lemma signal_other_invariants : other_invariants signal.
Proof.
  split; [by intros [=]|]. split; [by intros _|]. split; by intros [=].
Defined.

Lemma construct_valid_signal :
  invariants signal
  /\ construct signal = Ok signal
  /\ TradingSignal_new (list_to_map (items signal)) = Ok signal.
Proof.
  assert (H : invariants signal)
    by exact (conj signal_percent_valid signal_other_invariants).
  exact (conj H (construct_valid signal H)).
Defined.

(** C4: construction fails with the percentage error exactly when
    [amount_capital_percent] lies outside (0, 100], whatever the other
    fields hold; and when the other invariants hold, it succeeds exactly
    when the percentage lies inside.  The percentage is any Decimal that is
    a number or an infinity. *)
Theorem percent_validation (self : TradingSignal) (d : Decimal) :
  amount_capital_percent self = VDecimal d -> is_NaN d = false ->
  (construct self = Err (ValueError percent_msg) <-> ~ in_percent_range d)
  /\ (other_invariants self ->
      (construct self = Ok self <-> in_percent_range d)).
Proof.
  intros Hd Hnan. split.
  - rewrite construct_Err, post_init_percent_error, Hd. split.
    + intros Hf Hin. apply percent_in_range_true in Hin. congruence.
    + by apply percent_in_range_false.
  - intros Ho. rewrite construct_Ok, (other_invariants_post_init _ Ho), Hd.
    split; [intros [H _]; by apply percent_in_range_true_inv|].
    intros H. split; [by apply percent_in_range_true|done].
Qed.

Lemma percent_validation_witness :
  construct (signal_with_percent (Finite false 0 0))
    = Err (ValueError percent_msg)
  /\ construct (signal_with_percent (Finite false 10001 (-2)))
    = Err (ValueError percent_msg)
  /\ construct (signal_with_percent (Finite false 100 0))
    = Ok (signal_with_percent (Finite false 100 0)).
Proof.
  split; [|split].
  - apply (percent_validation (signal_with_percent (Finite false 0 0))
             (Finite false 0 0) eq_refl eq_refl).
    intros [H _]. vm_compute in H. discriminate H.
  - apply (percent_validation (signal_with_percent (Finite false 10001 (-2)))
             (Finite false 10001 (-2)) eq_refl eq_refl).
    intros [_ H]. vm_compute in H. by apply H.
  - apply (percent_validation (signal_with_percent (Finite false 100 0))
             (Finite false 100 0) eq_refl eq_refl).
    + exact signal_other_invariants.
    + split; [by vm_compute|]. by vm_compute.
Defined.

(** C5: for a construction with [trade_type == EVM], an absent or empty
    [contract_address] makes the construction fail, with the
    contract-address error once the percentage has passed its check (the
    checks run in the order of the invariants); a non-empty address never
    gives that error, and the construction succeeds when the other
    invariants hold. *)
Theorem contract_address_required (self : TradingSignal) :
  trade_type self = VTradeType EVM ->
  (absent_or_empty (contract_address self) ->
     (forall s, construct self <> Ok s)
     /\ (percent_valid self ->
         construct self = Err (ValueError contract_address_msg)))
  /\ (nonempty_str (contract_address self) ->
     construct self <> Err (ValueError contract_address_msg)
     /\ (percent_valid self -> prices_present self ->
         construct self = Ok self)).
Proof.
  intros Hevm. split.
  - intros Hca%absent_or_empty_falsy. split.
    + intros s [Hok _]%construct_Ok. apply post_init_Ok in Hok as (_ & H & _).
      specialize (H Hevm). congruence.
    + intros (d & Hd & Hr). apply construct_Err.
      apply post_init_contract_address_error; [|done..].
      rewrite Hd. by apply percent_in_range_true.
  - intros Hca. split.
    + rewrite construct_Err. unfold post_init.
      rewrite (nonempty_str_truthy _ Hca), andb_false_r.
      destruct (percent_in_range _) as [[|]|e] eqn:Hp;
        cbn [mbind result_bind negb].
      * repeat case_match; done.
      * done.
      * intros [= ->]. by destruct (percent_in_range_Err _ _ Hp).
    + intros Hp Hprices. by apply invariants_construct.
Qed.

Lemma contract_address_required_witness :
  construct evm_signal = Err (ValueError contract_address_msg)
  /\ construct evm_signal_with_address = Ok evm_signal_with_address.
Proof.
  split.
  - apply (contract_address_required evm_signal eq_refl).
    + by left.
    + exact signal_percent_valid.
  - apply (contract_address_required evm_signal_with_address eq_refl).
    + exists "0xabc"%string. by split.
    + exact signal_percent_valid.
    + exact (proj2 signal_other_invariants).
Defined.

(** C6: starting from any record that constructs (a known-good baseline)
    and holding every other field constant, the construction fails when
    the order type is LIMIT and [limit_price] is absent, when it is
    STOP_LOSS and [stop_price] is absent, and when it is TAKE_PROFIT and
    [take_profit_price] is absent: each of the three alone, whatever the
    other two prices hold. *)
Theorem companion_price_required (s : TradingSignal) :
  construct s = Ok s ->
  construct (with_field "limit_price" VNone
               (with_field "order_type" (VOrderType LIMIT) s))
    = Err (ValueError limit_price_msg)
  /\ construct (with_field "stop_price" VNone
                  (with_field "order_type" (VOrderType STOP_LOSS) s))
    = Err (ValueError stop_price_msg)
  /\ construct (with_field "take_profit_price" VNone
                  (with_field "order_type" (VOrderType TAKE_PROFIT) s))
    = Err (ValueError take_profit_price_msg).
Proof.
  intros [Hok _]%construct_Ok. apply post_init_Ok_first_checks in Hok.
  split; [|split]; apply construct_Err.
  - by apply post_init_limit_price_error.
  - by apply post_init_stop_price_error.
  - by apply post_init_take_profit_price_error.
Qed.

Lemma companion_price_required_witness :
  construct (with_field "limit_price" VNone
               (with_field "order_type" (VOrderType LIMIT) signal))
    = Err (ValueError limit_price_msg)
  /\ construct (with_field "stop_price" VNone
                  (with_field "order_type" (VOrderType STOP_LOSS) signal))
    = Err (ValueError stop_price_msg)
  /\ construct (with_field "take_profit_price" VNone
                  (with_field "order_type" (VOrderType TAKE_PROFIT) signal))
    = Err (ValueError take_profit_price_msg).
Proof.
  apply (companion_price_required signal). by vm_compute.
Defined.

(** ** Encoding *)

(** C8: the encoded dictionary omits every field whose value is [None]: it
    has no entry for such a field, no entry at all holds [None], and every
    key is a field name; in particular a record with [fixed_size] absent is
    encoded without a [fixed_size] key. *)
Theorem to_dict_omits_None (self : TradingSignal) :
  (forall f, getattr self f = Some VNone -> to_dict self !! f = None)
  /\ (forall f v, to_dict self !! f = Some v ->
        v <> VNone /\ exists x, getattr self f = Some x /\ v = encode_value x)
  /\ (fixed_size self = VNone -> to_dict self !! "fixed_size"%string = None).
Proof.
  split; [|split].
  - intros f Hf. by rewrite lookup_to_dict, Hf.
  - intros f v. rewrite lookup_to_dict.
    destruct (getattr self f) as [x|]; [|done]. cbn.
    destruct (is_None x) eqn:Hx; [done|]. intros [= <-].
    split; [|by exists x]. by apply encode_value_not_None, is_None_false.
  - intros Hf. rewrite lookup_to_dict.
    change (getattr self "fixed_size") with (Some (fixed_size self)).
    by rewrite Hf.
Qed.

Lemma from_dict_snd (m : gmap string value) (s : TradingSignal) :
  (from_dict m).2 = Ok s -> from_dict m = ((from_dict m).1, Ok s).
Proof. destruct (from_dict m) as [m' r]. cbn [fst snd]. by intros ->. Qed.

(** An entry that neither loop of [from_dict] converts reaches the
    constructor as it is. *)
Lemma from_dict_untouched (m : gmap string value) (k : string) :
  k ∉ enum_fields.*1 -> k ∉ decimal_fields ->
  (from_dict m).1 !! k = m !! k.
Proof.
  intros Hke Hkd. unfold from_dict.
  destruct (convert_enums enum_fields m) as [m1 r1] eqn:He.
  destruct (convert_enums_spec _ _ _ _ enum_fields_NoDup He) as (_ & H1 & _).
  destruct r1 as [[]|e1]; [|by apply H1].
  destruct (convert_decimals decimal_fields m1) as [m2 r2] eqn:Hd.
  destruct (convert_decimals_spec _ _ _ _ decimal_fields_NoDup Hd) as (_ & H2 & _).
  destruct r2 as [[]|e2]; cbn [fst]; rewrite H2 by done; by apply H1.
Qed.

(** C10: the encoded dictionary of a record whose [reduce_only] is a
    boolean always has the key [reduce_only], also when the boolean is
    [False]; and a record decoded from a map without that key holds the
    default [False] and is encoded with [reduce_only] present. *)
Theorem to_dict_reduce_only :
  (forall self b, reduce_only self = VBool b ->
     to_dict self !! "reduce_only"%string = Some (VBool b))
  /\ (forall m s, m !! "reduce_only"%string = None ->
        (from_dict m).2 = Ok s ->
        reduce_only s = VBool false
        /\ to_dict s !! "reduce_only"%string = Some (VBool false)).
Proof.
  assert (Henc : forall self b, reduce_only self = VBool b ->
            to_dict self !! "reduce_only"%string = Some (VBool b)).
  { intros self b Hb. rewrite lookup_to_dict.
    change (getattr self "reduce_only") with (Some (reduce_only self)).
    by rewrite Hb. }
  split; [done|]. intros m s Hm Hs.
  assert (Hr : reduce_only s = VBool false).
  { assert (Hk : (from_dict m).1 !! "reduce_only"%string = None).
    { rewrite from_dict_untouched; [done|by_evaluation..]. }
    apply from_dict_snd, from_dict_Ok in Hs as (m1 & _ & _ & Hbind & _).
    apply bind_kwargs_Ok in Hbind as [_ Hbind].
    assert (Hin : "reduce_only"%string ∈ dataclass_fields) by by_evaluation.
    apply Hbind in Hin. rewrite Hk in Hin.
    change (getattr s "reduce_only") with (Some (reduce_only s)) in Hin.
    change (Some (reduce_only s) = Some (VBool false)) in Hin. congruence. }
  split; [done|]. by apply Henc.
Qed.

Lemma from_dict_signal_dict : (from_dict signal_dict).2 = Ok signal.
Proof. by vm_compute. Qed.

Lemma signal_dict_no_reduce_only : signal_dict !! "reduce_only"%string = None.
Proof. by vm_compute. Qed.

Lemma to_dict_reduce_only_witness :
  reduce_only signal = VBool false
  /\ to_dict signal !! "reduce_only"%string = Some (VBool false).
Proof.
  exact (proj2 to_dict_reduce_only signal_dict signal
           signal_dict_no_reduce_only from_dict_signal_dict).
Defined.

(** ** Decoding *)

Lemma decimal_not_enum (k : string) : k ∈ decimal_fields -> k ∉ enum_fields.*1.
Proof.
  intros Hk. unfold decimal_fields in Hk.
  repeat (apply elem_of_cons in Hk as [->|Hk]; [by_evaluation|]).
  by apply elem_of_nil in Hk.
Qed.

Lemma from_dict_type_converted :
  (from_dict signal_dict).1 !! "type"%string = Some (VSignalType TRADE).
Proof. by vm_compute. Qed.

Lemma signal_dict_type : signal_dict !! "type"%string = Some (VStr "TRADE").
Proof. by vm_compute. Qed.

(** C9, as stated, fails: after decoding the example map, the map of the
    caller holds the member [SignalType.TRADE] where it held the string. *)
Lemma from_dict_mutates_input : (from_dict signal_dict).1 <> signal_dict.
Proof.
  intros H. pose proof from_dict_type_converted as Ht.
  rewrite H, signal_dict_type in Ht. discriminate Ht.
Qed.

(** [from_dict] neither adds nor removes a key of the map it is given. *)
Lemma from_dict_dom (m : gmap string value) : dom (from_dict m).1 = dom m.
Proof.
  unfold from_dict.
  destruct (convert_enums enum_fields m) as [m1 r1] eqn:He.
  destruct (convert_enums_spec _ _ _ _ enum_fields_NoDup He) as (H1 & _).
  destruct r1 as [[]|e1]; [|done].
  destruct (convert_decimals decimal_fields m1) as [m2 r2] eqn:Hd.
  destruct (convert_decimals_spec _ _ _ _ decimal_fields_NoDup Hd) as (H2 & _).
  destruct r2 as [[]|e2]; cbn [fst]; congruence.
Qed.

(** C9, amended: [from_dict] assigns into the map it is given, and nothing
    else.  Whether it returns or raises, the map has the same keys after
    the call; an entry that is neither one of the four enumerated fields
    nor one of the seven decimal fields is unchanged; and an entry that
    changed holds the enumeration member, or the Decimal, that the loops
    computed from the old value. *)
Theorem from_dict_frame (m : gmap string value) :
  dom (from_dict m).1 = dom m
  /\ (forall k, k ∉ enum_fields.*1 -> k ∉ decimal_fields ->
        (from_dict m).1 !! k = m !! k)
  /\ (forall k v', (from_dict m).1 !! k = Some v' ->
        exists v, m !! k = Some v
          /\ (v' = v
              \/ (exists c, (k, c) ∈ enum_fields /\ enum_getitem c v = Ok v')
              \/ (k ∈ decimal_fields /\ exists d,
                    v' = VDecimal d /\ to_Decimal v = Ok d))).
Proof.
  split; [apply from_dict_dom|split; [apply from_dict_untouched|]].
  intros k v'.
    assert (Henum : forall m1 r1, convert_enums enum_fields m = (m1, r1) ->
              m1 !! k = Some v' ->
              exists v, m !! k = Some v
                /\ (v' = v \/ exists c, (k, c) ∈ enum_fields
                                /\ enum_getitem c v = Ok v')).
    { intros m1 r1 He Hk.
      destruct (convert_enums_spec _ _ _ _ enum_fields_NoDup He) as (_ & Hout & Hin & _).
      destruct (decide (k ∈ enum_fields.*1)) as [Hke|Hke].
      - apply list_elem_of_fmap in Hke as ([k' c] & -> & Hkc). cbn [fst] in *.
        destruct (Hin _ _ Hkc) as [Heq|(v & x & Hv & Hget & Hx)].
        + exists v'. split; [congruence|by left].
        + exists v. split; [done|]. right. exists c. split; [done|]. congruence.
      - exists v'. split; [|by left]. by rewrite <- Hout. }
    unfold from_dict.
    destruct (convert_enums enum_fields m) as [m1 r1] eqn:He.
    specialize (Henum m1 r1 eq_refl).
    assert (Hfirst : m1 !! k = Some v' ->
              exists v, m !! k = Some v
                /\ (v' = v
                    \/ (exists c, (k, c) ∈ enum_fields /\ enum_getitem c v = Ok v')
                    \/ (k ∈ decimal_fields /\ exists d,
                          v' = VDecimal d /\ to_Decimal v = Ok d))).
    { intros Hk. destruct (Henum Hk) as (v & Hv & [->|Hc]); exists v; auto. }
    destruct r1 as [[]|e1]; [|done].
    destruct (convert_decimals decimal_fields m1) as [m2 r2] eqn:Hd.
    destruct (convert_decimals_spec _ _ _ _ decimal_fields_NoDup Hd) as (_ & Hout & Hin & _).
    assert (Hk2 : m2 !! k = Some v' ->
              exists v, m !! k = Some v
                /\ (v' = v
                    \/ (exists c, (k, c) ∈ enum_fields /\ enum_getitem c v = Ok v')
                    \/ (k ∈ decimal_fields /\ exists d,
                          v' = VDecimal d /\ to_Decimal v = Ok d))).
    { intros Hk. destruct (decide (k ∈ decimal_fields)) as [Hkd|Hkd].
      - destruct (Hin _ Hkd) as [Heq|(v & d & Hv & _ & Hget & Hx)].
        + apply Hfirst. congruence.
        + exists v. split.
          * destruct (convert_enums_spec _ _ _ _ enum_fields_NoDup He) as (_ & Ho & _).
            rewrite <- Ho; [done|]. by apply decimal_not_enum.
          * right. right. split; [done|]. exists d. split; [congruence|done].
      - apply Hfirst. by rewrite <- Hout. }
    destruct r2 as [[]|e2]; done.
Qed.

(** [enum_class[name]] succeeds exactly on the tags of the closed set, and
    the member it returns is encoded as that tag. *)
Lemma enum_getitem_Ok (c : enum_class) (key x : value) :
  enum_getitem c key = Ok x ->
  exists v, key = VStr v /\ v ∈ enum_tags c /\ encode_value x = VStr v.
Proof.
  intros Hget. destruct (enum_getitem_Ok_str _ _ _ Hget) as [v ->].
  revert Hget. unfold enum_getitem, member_named. cbn [hashable].
  destruct c; cbn [find SignalType_members TradeType_members Side_members
                   OrderType_members SignalType_value TradeType_value
                   Side_value OrderType_value];
    repeat case_bool_decide; cbn [fmap option_fmap option_map];
    intros [= <-]; subst v; eexists; (split; [reflexivity|]);
    (split; [by_evaluation|reflexivity]).
Qed.

Lemma enum_getitem_unknown (c : enum_class) (v : string) :
  v ∉ enum_tags c -> enum_getitem c (VStr v) = Err (KeyError (VStr v)).
Proof.
  intros Hv. destruct (enum_getitem c (VStr v)) as [x|e] eqn:Hget.
  - apply enum_getitem_Ok in Hget as (v' & [= <-] & Hin & _). done.
  - by rewrite (enum_getitem_Err _ _ _ Hget).
Qed.

(** The first loop stops at the first field, in the order of
    [enum_fields], whose value is not the name of a member, and raises the
    exception of that lookup: [KeyError] with that value, or [TypeError]
    when the value cannot be hashed. *)
Lemma convert_enums_fails (fs : list (string * enum_class))
  (m : gmap string value) :
  NoDup fs.*1 ->
  (exists f c v, (f, c) ∈ fs /\ m !! f = Some v
     /\ enum_getitem c v = Err (lookup_error v)) ->
  exists pre f c key post,
    fs = pre ++ (f, c) :: post
    /\ m !! f = Some key
    /\ enum_getitem c key = Err (lookup_error key)
    /\ (forall g c0 w, (g, c0) ∈ pre -> m !! g = Some w ->
          exists x, enum_getitem c0 w = Ok x)
    /\ (convert_enums fs m).2 = Err (lookup_error key).
Proof.
  revert m. induction fs as [|[g c0] fs IH]; intros m Hnd (f & c & v & Hin & Hv & Hget).
  - by apply elem_of_nil in Hin.
  - cbn [fmap list_fmap fst] in Hnd. apply NoDup_cons in Hnd as [Hg Hnd].
    cbn [convert_enums].
    destruct (m !! g) as [w|] eqn:Hmg.
    + destruct (enum_getitem c0 w) as [x|e] eqn:Hw.
      * assert (Hfs : (f, c) ∈ fs).
        { apply elem_of_cons in Hin as [[= -> ->]|Hin]; [congruence|done]. }
        assert (Hfg : f <> g).
        { intros ->. apply Hg, list_elem_of_fmap. by exists (g, c). }
        destruct (IH (<[g:=x]> m) Hnd) as (pre & f' & c' & key & post & -> & Hk & Hkey & Hpre & Hres).
        { exists f, c, v. by rewrite lookup_insert_ne. }
        assert (Hne : forall h ch, (h, ch) ∈ pre ++ (f', c') :: post -> h <> g).
        { intros h ch Hh ->. apply Hg, list_elem_of_fmap. by exists (g, ch). }
        exists ((g, c0) :: pre), f', c', key, post.
        split; [done|]. split.
        { rewrite lookup_insert_ne in Hk; [done|].
          intros <-. eapply (Hne g c'); [|done].
          apply elem_of_app. right. by left. }
        split; [done|]. split; [|done].
        intros h ch w' [[= -> ->]|Hh]%elem_of_cons Hw'.
        -- exists x. congruence.
        -- apply (Hpre h ch w' Hh). rewrite lookup_insert_ne; [done|].
           intros <-. eapply (Hne g ch); [|done]. apply elem_of_app. by left.
      * apply enum_getitem_Err in Hw as Hw'. subst e.
        exists [], g, c0, w, fs. split; [done|]. split; [done|]. split; [done|].
        split; [|done]. intros h ch w' Hh. by apply elem_of_nil in Hh.
    + assert (Hfs : (f, c) ∈ fs).
      { apply elem_of_cons in Hin as [[= -> ->]|Hin]; [congruence|done]. }
      destruct (IH m Hnd) as (pre & f' & c' & key & post & -> & Hk & Hkey & Hpre & Hres).
      { by exists f, c, v. }
      exists ((g, c0) :: pre), f', c', key, post.
      split; [done|]. split; [done|]. split; [done|]. split; [|done].
      intros h ch w' [[= -> ->]|Hh]%elem_of_cons Hw'; [congruence|].
      by apply (Hpre h ch w').
Qed.

Lemma from_dict_enum_error (m : gmap string value) (e : exn) :
  (convert_enums enum_fields m).2 = Err e -> (from_dict m).2 = Err e.
Proof.
  unfold from_dict. destruct (convert_enums enum_fields m) as [m1 [[]|e1]];
    cbn [snd]; [done|]. by intros [= ->].
Qed.

(** C7, amended: when one of the four enumerated fields of the input
    carries a tag outside its closed set, decoding fails at the first
    enumerated field, in the order type, trade_type, side, order_type,
    whose value names no member; the fields before it are absent or valid.
    The exception is that of the failed lookup ([lookup_error]): a
    [KeyError] that carries the value of that field, or a [TypeError] when
    that value cannot be hashed (a signaling NaN).  When the field at hand
    is the only one that fails its lookup, the exception is the [KeyError]
    that carries its tag. *)
Theorem from_dict_unknown_enum (m : gmap string value) (f : string)
  (c : enum_class) (v : string) :
  (f, c) ∈ enum_fields -> m !! f = Some (VStr v) -> v ∉ enum_tags c ->
  (exists pre f' c' key post,
     enum_fields = pre ++ (f', c') :: post
     /\ m !! f' = Some key
     /\ enum_getitem c' key = Err (lookup_error key)
     /\ (forall g c0 w, (g, c0) ∈ pre -> m !! g = Some w ->
           exists x, enum_getitem c0 w = Ok x)
     /\ (from_dict m).2 = Err (lookup_error key))
  /\ ((forall g c0 w, (g, c0) ∈ enum_fields -> g <> f -> m !! g = Some w ->
         exists x, enum_getitem c0 w = Ok x) ->
      (from_dict m).2 = Err (KeyError (VStr v))).
Proof.
  intros Hf Hm Hv.
  destruct (convert_enums_fails enum_fields m enum_fields_NoDup)
    as (pre & f' & c' & key & post & Hsplit & Hk & Hkey & Hpre & Hres).
  { exists f, c, (VStr v). split; [done|]. split; [done|].
    by apply enum_getitem_unknown. }
  apply from_dict_enum_error in Hres. split.
  - by exists pre, f', c', key, post.
  - intros Honly. destruct (decide (f' = f)) as [->|Hne].
    + by simplify_eq.
    + destruct (Honly f' c' key) as [x Hx]; [|done..|congruence].
      rewrite Hsplit. apply elem_of_app. right. by left.
Qed.

Lemma bogus_order_type_lookup :
  bogus_order_type !! "order_type"%string = Some (VStr "BOGUS").
Proof. by vm_compute. Qed.

Lemma bogus_side_lookup : bogus_side !! "side"%string = Some (VStr "BOGUS").
Proof. by vm_compute. Qed.

Lemma BOGUS_no_tag (c : enum_class) : "BOGUS"%string ∉ enum_tags c.
Proof. destruct c; by_evaluation. Qed.

Lemma bogus_order_type_only (g : string) (c0 : enum_class) (w : value) :
  (g, c0) ∈ enum_fields -> g <> "order_type"%string ->
  bogus_order_type !! g = Some w -> exists x, enum_getitem c0 w = Ok x.
Proof.
  intros Hg Hne. unfold enum_fields in Hg.
  repeat (apply elem_of_cons in Hg as [[= -> ->]|Hg];
          [first [done|vm_compute; intros [= <-]; by eexists]|]).
  by apply elem_of_nil in Hg.
Qed.

Lemma from_dict_unknown_enum_witness :
  (from_dict bogus_order_type).2 = Err (KeyError (VStr "BOGUS")).
Proof.
  apply (proj2 (from_dict_unknown_enum bogus_order_type "order_type"
                  cls_OrderType "BOGUS" ltac:(by_evaluation)
                  bogus_order_type_lookup (BOGUS_no_tag cls_OrderType))).
  exact bogus_order_type_only.
Defined.

Lemma from_dict_bogus_side :
  (from_dict bogus_side).2 = Err (KeyError (VStr "BOGUS")).
Proof. by vm_compute. Qed.

Lemma from_dict_bogus_order_type :
  (from_dict bogus_order_type).2 = Err (KeyError (VStr "BOGUS")).
Proof. by vm_compute. Qed.

Lemma offending_bogus_side (f : string) :
  offending bogus_side f <-> f = "side"%string.
Proof.
  split.
  - intros (c & v & Hf & Hm & Hv). unfold enum_fields in Hf.
    repeat (apply elem_of_cons in Hf as [[= -> ->]|Hf];
            [first [done
                   |vm_compute in Hm; injection Hm as <-; contradict Hv;
                    by_evaluation]|]).
    by apply elem_of_nil in Hf.
  - intros ->. exists cls_Side, "BOGUS"%string.
    split; [by_evaluation|]. split; [apply bogus_side_lookup|apply BOGUS_no_tag].
Qed.

Lemma offending_bogus_order_type (f : string) :
  offending bogus_order_type f <-> f = "order_type"%string.
Proof.
  split.
  - intros (c & v & Hf & Hm & Hv). unfold enum_fields in Hf.
    repeat (apply elem_of_cons in Hf as [[= -> ->]|Hf];
            [first [done
                   |vm_compute in Hm; injection Hm as <-; contradict Hv;
                    by_evaluation]|]).
    by apply elem_of_nil in Hf.
  - intros ->. exists cls_OrderType, "BOGUS"%string.
    split; [by_evaluation|].
    split; [apply bogus_order_type_lookup|apply BOGUS_no_tag].
Qed.

(** C7, as stated, fails: the failure does not name the offending field.
    The tag [BOGUS] in [side] and the tag [BOGUS] in [order_type] make
    decoding fail with one and the same exception, [KeyError('BOGUS')], so
    no reading of the exception gives the offending field of both inputs. *)
Lemma from_dict_error_names_no_field :
  (from_dict bogus_side).2 = (from_dict bogus_order_type).2
  /\ ~ exists field_of : exn -> string, names_offending_field field_of.
Proof.
  split; [by rewrite from_dict_bogus_side, from_dict_bogus_order_type|].
  intros [field_of Hnames].
  assert (H1 : offending bogus_side (field_of (KeyError (VStr "BOGUS")))).
  { apply (Hnames _ _ from_dict_bogus_side).
    exists "side"%string. by apply offending_bogus_side. }
  assert (H2 : offending bogus_order_type (field_of (KeyError (VStr "BOGUS")))).
  { apply (Hnames _ _ from_dict_bogus_order_type).
    exists "order_type"%string. by apply offending_bogus_order_type. }
  apply offending_bogus_side in H1. apply offending_bogus_order_type in H2.
  rewrite H1 in H2. discriminate H2.
Qed.

(** ** Decoding, then encoding *)

Lemma field_default_other (k : string) :
  k <> "reduce_only"%string -> field_default k = VNone.
Proof.
  intros Hk. unfold field_default. by apply String.eqb_neq in Hk as ->.
Qed.

Lemma enum_not_reduce_only (k : string) :
  k ∈ enum_fields.*1 -> k <> "reduce_only"%string.
Proof.
  intros Hk. unfold enum_fields in Hk. cbn [fmap list_fmap fst] in Hk.
  repeat (apply elem_of_cons in Hk as [->|Hk]; [done|]).
  by apply elem_of_nil in Hk.
Qed.

Lemma decimal_not_reduce_only (k : string) :
  k ∈ decimal_fields -> k <> "reduce_only"%string.
Proof.
  intros Hk. unfold decimal_fields in Hk.
  repeat (apply elem_of_cons in Hk as [->|Hk]; [done|]).
  by apply elem_of_nil in Hk.
Qed.

(** What a successful decoding leaves in the dictionary for a key of a
    well-formed map: the value that [to_dict] turns back into the text. *)
Lemma from_dict_decoded (m : gmap string value) (s : TradingSignal)
  (k : string) (v : value) :
  well_formed m -> (from_dict m).2 = Ok s -> m !! k = Some v ->
  exists x, (from_dict m).1 !! k = Some x /\ x <> VNone /\ encode_value x = v.
Proof.
  intros Hwf Hs Hk. pose proof (Hwf k v Hk) as Htext. unfold textual in Htext.
  apply from_dict_snd in Hs. destruct (from_dict_Ok _ _ _ Hs) as (m1 & He & Hd & _).
  destruct (convert_enums_spec _ _ _ _ enum_fields_NoDup He) as (_ & He1 & _ & He2).
  destruct (convert_decimals_spec _ _ _ _ decimal_fields_NoDup Hd) as (_ & Hd1 & _ & Hd2).
  case_bool_decide as Hkd.
  - destruct Htext as [d ->].
    assert (Hm1 : m1 !! k = Some (VStr (Decimal_str d))).
    { rewrite He1; [done|]. by apply decimal_not_enum. }
    destruct (Hd2 eq_refl k _ Hkd Hm1) as (d' & Hparse & Hx); [done|].
    rewrite to_Decimal_str, Decimal_of_str_str in Hparse.
    injection Hparse as <-. exists (VDecimal d). by rewrite Hx.
  - destruct (decide (k ∈ enum_fields.*1)) as [Hke|Hke].
    + assert (k <> "reduce_only"%string) by (by apply enum_not_reduce_only).
      rewrite bool_decide_eq_false_2 in Htext by done. destruct Htext as [t ->].
      apply list_elem_of_fmap in Hke as ([k' c] & -> & Hkc). cbn [fst] in *.
      destruct (He2 eq_refl _ _ _ Hkc Hk) as (x & Hget & Hx).
      apply enum_getitem_Ok in Hget as (t' & [= <-] & _ & Henc).
      exists x. rewrite Hd1, Hx by done. split; [done|]. split; [|done].
      intros ->. discriminate Henc.
    + exists v. rewrite Hd1, He1 by done. split; [done|].
      case_bool_decide; destruct Htext as [? ->]; done.
Qed.

(** C2, amended: for a well-formed interchange map that decodes, encoding
    the decoded record gives back the entries of the map, key for key and
    text for text, and one more when the map has no [reduce_only]: the
    entry [reduce_only = False], the default of the field.  Well-formed
    means that every value is text, the decimal fields in the canonical
    form that the encoder writes. *)
Theorem decode_encode (m : gmap string value) (s : TradingSignal) :
  well_formed m -> (from_dict m).2 = Ok s ->
  to_dict s
  = <["reduce_only"%string :=
        default (VBool false) (m !! "reduce_only"%string)]> m.
Proof.
  intros Hwf Hs. apply map_eq. intros k. rewrite lookup_to_dict.
  pose proof (from_dict_dom m) as Hdom.
  destruct (from_dict_Ok _ _ _ (from_dict_snd _ _ Hs)) as (m1 & _ & _ & Hbind & _).
  apply bind_kwargs_Ok in Hbind as [Hkeys Hbind].
  destruct (decide (k ∈ dataclass_fields)) as [Hk|Hk].
  - rewrite (Hbind k Hk).
    destruct (m !! k) as [v|] eqn:Hmk.
    + destruct (from_dict_decoded m s k v Hwf Hs Hmk) as (x & Hx & Hnn & Henc).
      rewrite Hx. cbn [from_option id mbind option_bind].
      apply is_None_false in Hnn. rewrite Hnn, Henc.
      destruct (decide (k = "reduce_only"%string)) as [->|Hne].
      * rewrite lookup_insert_eq, Hmk. done.
      * by rewrite lookup_insert_ne.
    + assert (Hnone : (from_dict m).1 !! k = None).
      { apply not_elem_of_dom. rewrite Hdom. by apply not_elem_of_dom. }
      rewrite Hnone. cbn [from_option id mbind option_bind].
      destruct (decide (k = "reduce_only"%string)) as [->|Hne].
      * rewrite lookup_insert_eq, Hmk. done.
      * rewrite lookup_insert_ne, Hmk, field_default_other by done. done.
  - rewrite (proj2 (getattr_None s k) Hk). cbn [mbind option_bind].
    assert (k <> "reduce_only"%string) by (intros ->; apply Hk; by_evaluation).
    rewrite lookup_insert_ne by done. symmetry.
    apply not_elem_of_dom. rewrite <- Hdom. intros Hin. by apply Hk, Hkeys.
Qed.

Lemma well_formed_insert (k : string) (v : value) (m : gmap string value) :
  textual k v -> well_formed m -> well_formed (<[k:=v]> m).
Proof. apply map_Forall_insert_2. Qed.

Lemma textual_decimal (k : string) (d : Decimal) :
  k ∈ decimal_fields -> textual k (VStr (Decimal_str d)).
Proof.
  intros Hk. unfold textual. rewrite bool_decide_eq_true_2 by done. by eexists.
Qed.

Lemma textual_str (k : string) (t : string) :
  k <> "reduce_only"%string -> k ∉ decimal_fields -> textual k (VStr t).
Proof.
  intros H1 H2. unfold textual.
  rewrite !bool_decide_eq_false_2 by done. by eexists.
Qed.

Lemma signal_dict_well_formed : well_formed signal_dict.
Proof.
  unfold signal_dict. cbn [list_to_map foldr fst snd].
  repeat (apply well_formed_insert;
          [first [apply textual_str; [done|by_evaluation]
                 |apply (textual_decimal _ (Finite false 100 (-1))); by_evaluation
                 |apply (textual_decimal _ (Finite false 15 (-1))); by_evaluation
                 |apply (textual_decimal _ (Finite false 20000 (-1))); by_evaluation]|]).
  apply map_Forall_empty.
Qed.

(** C2, as stated, fails: the example map has no [reduce_only], and the
    encoding of the record decoded from it has one. *)
Lemma decode_encode_adds_reduce_only :
  (from_dict signal_dict).2 = Ok signal
  /\ signal_dict !! "reduce_only"%string = None
  /\ to_dict signal !! "reduce_only"%string = Some (VBool false)
  /\ dom (to_dict signal) <> dom signal_dict.
Proof.
  split; [exact from_dict_signal_dict|].
  split; [exact signal_dict_no_reduce_only|].
  assert (H : to_dict signal !! "reduce_only"%string = Some (VBool false))
    by (by vm_compute).
  split; [done|]. intros Hdom.
  assert (Hin : "reduce_only"%string ∈ dom (to_dict signal)).
  { apply elem_of_dom. by rewrite H. }
  rewrite Hdom in Hin. apply elem_of_dom in Hin as [v Hv].
  rewrite signal_dict_no_reduce_only in Hv. discriminate Hv.
Qed.

Lemma decode_encode_witness :
  to_dict signal = <["reduce_only"%string := VBool false]> signal_dict.
Proof.
  pose proof (decode_encode signal_dict signal signal_dict_well_formed
                from_dict_signal_dict) as H.
  rewrite signal_dict_no_reduce_only in H. exact H.
Defined.

(** ** Encoding, then decoding *)

(** C1, where the code falls short of the claim: [to_dict] writes a
    datetime as text and [from_dict] never reads it back, so a record
    whose timestamp is a point in time is decoded with its ISO text as
    timestamp and differs from the record that was encoded. *)
Theorem roundtrip_loses_timestamp (self s' : TradingSignal) (t : datetime) :
  timestamp self = VDatetime t ->
  (from_dict (to_dict self)).2 = Ok s' ->
  timestamp s' = VStr (str_of (isoformat "T" t ++ ["Z"%char]))
  /\ s' <> self.
Proof.
  intros Ht Hs.
  assert (Hk : (from_dict (to_dict self)).1 !! "timestamp"%string
               = Some (VStr (str_of (isoformat "T" t ++ ["Z"%char])))).
  { rewrite from_dict_untouched by by_evaluation. rewrite lookup_to_dict.
    change (getattr self "timestamp") with (Some (timestamp self)).
    by rewrite Ht. }
  destruct (from_dict_Ok _ _ _ (from_dict_snd _ _ Hs)) as (m1 & _ & _ & Hbind & _).
  apply bind_kwargs_Ok in Hbind as [_ Hbind].
  assert (Hin : "timestamp"%string ∈ dataclass_fields) by by_evaluation.
  apply Hbind in Hin. rewrite Hk in Hin.
  change (getattr s' "timestamp") with (Some (timestamp s')) in Hin.
  change (Some (timestamp s')
          = Some (VStr (str_of (isoformat "T" t ++ ["Z"%char])))) in Hin.
  assert (Hts : timestamp s' = VStr (str_of (isoformat "T" t ++ ["Z"%char])))
    by congruence.
  split; [done|]. intros ->. congruence.
Qed.

Lemma roundtrip_signal_at_noon :
  (from_dict (to_dict signal_at_noon)).2 = Ok signal.
Proof. by vm_compute. Qed.

Lemma roundtrip_loses_timestamp_witness :
  timestamp signal = VStr "2024-02-19T12:00:00Z" /\ signal <> signal_at_noon.
Proof.
  exact (roundtrip_loses_timestamp signal_at_noon signal
           (mk_datetime 2024 2 19 12 0 0 0) eq_refl roundtrip_signal_at_noon).
Defined.

(** ** When decoding succeeds *)

(** The first loop succeeds when every enumerated field that is present
    names a member. *)
Lemma convert_enums_Ok_intro (fs : list (string * enum_class))
  (m : gmap string value) :
  NoDup fs.*1 ->
  (forall f c v, (f, c) ∈ fs -> m !! f = Some v ->
     exists x, enum_getitem c v = Ok x) ->
  (convert_enums fs m).2 = Ok tt.
Proof.
  intros Hnd Hall.
  destruct (convert_enums fs m) as [m1 [[]|e]] eqn:Hrun; [done|].
  exfalso.
  assert (Hbad : exists f c v, (f, c) ∈ fs /\ m !! f = Some v
                   /\ enum_getitem c v = Err (lookup_error v)).
  { clear Hall. revert m Hrun. induction fs as [|[g c0] fs IH]; intros m Hrun.
    - done.
    - cbn [fmap list_fmap fst] in Hnd. apply NoDup_cons in Hnd as [Hg Hnd].
      cbn [convert_enums] in Hrun.
      destruct (m !! g) as [w|] eqn:Hmg.
      + destruct (enum_getitem c0 w) as [x|e'] eqn:Hw.
        * destruct (IH Hnd _ Hrun) as (f & c & v & Hin & Hv & Hget).
          exists f, c, v. split; [by right|]. split; [|done].
          rewrite lookup_insert_ne in Hv; [done|].
          intros <-. apply Hg, list_elem_of_fmap. by exists (g, c).
        * exists g, c0, w. split; [by left|]. split; [done|].
          by rewrite (enum_getitem_Err _ _ _ Hw) in Hw.
      + destruct (IH Hnd _ Hrun) as (f & c & v & Hin & Hv & Hget).
        exists f, c, v. split; [by right|]. done. }
  destruct Hbad as (f & c & v & Hin & Hv & Hget).
  destruct (Hall f c v Hin Hv) as [x Hx]. congruence.
Qed.

(** The second loop succeeds when every decimal field that is present and
    not [None] reads as a Decimal. *)
Lemma convert_decimals_Ok_intro (fs : list string) (m : gmap string value) :
  NoDup fs ->
  (forall f v, f ∈ fs -> m !! f = Some v -> v <> VNone ->
     exists d, to_Decimal v = Ok d) ->
  (convert_decimals fs m).2 = Ok tt.
Proof.
  revert m. induction fs as [|f fs IH]; intros m Hnd Hall; [done|].
  apply NoDup_cons in Hnd as [Hf Hnd]. cbn [convert_decimals].
  assert (Hrest : forall x, m !! f <> None ->
            (convert_decimals fs (<[f:=x]> m)).2 = Ok tt).
  { intros x _. apply IH; [done|]. intros g v Hg Hv Hnn.
    rewrite lookup_insert_ne in Hv by (by intros ->).
    apply (Hall g v); [by right|done..]. }
  assert (Hsame : (convert_decimals fs m).2 = Ok tt).
  { apply IH; [done|]. intros g v Hg. apply Hall. by right. }
  destruct (m !! f) as [v|] eqn:Hmf; [|done].
  destruct (is_None v) eqn:Hv; [done|].
  destruct (Hall f v) as [d ->]; [by left|done|by apply is_None_false|].
  by apply Hrest.
Qed.

(** The binding of keyword arguments fails with [TypeError] only, and
    succeeds exactly when every keyword is a field and every field without
    a default is given. *)
Lemma bind_kwargs_Err (kw : gmap string value) (e : exn) :
  bind_kwargs kw = Err e -> e = TypeError.
Proof.
  unfold bind_kwargs, required. case_bool_decide; [|by intros [= <-]].
  repeat (match goal with
          | |- context [kw !! ?k] =>
              destruct (kw !! k); cbn [mbind result_bind]; [|by intros [= <-]]
          end).
  done.
Qed.

Lemma bind_kwargs_required (kw : gmap string value) (s : TradingSignal) (k : string) :
  bind_kwargs kw = Ok s -> k ∈ required_fields -> is_Some (kw !! k).
Proof.
  unfold bind_kwargs, required. case_bool_decide; [|done].
  destruct (kw !! "signal_id"%string) eqn:H1; cbn [mbind result_bind]; [|done].
  destruct (kw !! "timestamp"%string) eqn:H2; cbn [mbind result_bind]; [|done].
  destruct (kw !! "type"%string) eqn:H3; cbn [mbind result_bind]; [|done].
  destruct (kw !! "trade_type"%string) eqn:H4; cbn [mbind result_bind]; [|done].
  destruct (kw !! "symbol"%string) eqn:H5; cbn [mbind result_bind]; [|done].
  destruct (kw !! "side"%string) eqn:H6; cbn [mbind result_bind]; [|done].
  destruct (kw !! "order_type"%string) eqn:H7; cbn [mbind result_bind]; [|done].
  destruct (kw !! "amount_capital_percent"%string) eqn:H8; cbn [mbind result_bind]; [|done].
  destruct (kw !! "message"%string) eqn:H9; cbn [mbind result_bind]; [|done].
  intros _ Hk. unfold required_fields in Hk.
  repeat (apply elem_of_cons in Hk as [->|Hk]; [by eexists|]).
  by apply elem_of_nil in Hk.
Qed.

Lemma bind_kwargs_Ok_intro (kw : gmap string value) :
  (forall k, k ∈ dom kw -> k ∈ dataclass_fields) ->
  (forall k, k ∈ required_fields -> is_Some (kw !! k)) ->
  exists s, bind_kwargs kw = Ok s.
Proof.
  intros Hkeys Hreq. unfold bind_kwargs, required.
  rewrite bool_decide_eq_true_2.
  2:{ intros k Hk. apply elem_of_list_to_set. by apply Hkeys. }
  assert (Hget : forall k, k ∈ required_fields -> exists v, kw !! k = Some v)
    by (intros k Hk; by apply Hreq).
  destruct (Hget "signal_id"%string) as [? ->]; [by_evaluation|].
  destruct (Hget "timestamp"%string) as [? ->]; [by_evaluation|].
  destruct (Hget "type"%string) as [? ->]; [by_evaluation|].
  destruct (Hget "trade_type"%string) as [? ->]; [by_evaluation|].
  destruct (Hget "symbol"%string) as [? ->]; [by_evaluation|].
  destruct (Hget "side"%string) as [? ->]; [by_evaluation|].
  destruct (Hget "order_type"%string) as [? ->]; [by_evaluation|].
  destruct (Hget "amount_capital_percent"%string) as [? ->]; [by_evaluation|].
  destruct (Hget "message"%string) as [? ->]; [by_evaluation|].
  cbn [mbind result_bind]. by eexists.
Qed.

Lemma from_dict_Ok_intro (m : gmap string value) :
  (convert_enums enum_fields m).2 = Ok tt ->
  (convert_decimals decimal_fields (convert_enums enum_fields m).1).2 = Ok tt ->
  (from_dict m).2 = TradingSignal_new (from_dict m).1.
Proof.
  unfold from_dict. destruct (convert_enums enum_fields m) as [m1 r1].
  cbn [fst snd]. intros ->.
  destruct (convert_decimals decimal_fields m1) as [m2 r2].
  cbn [fst snd]. by intros ->.
Qed.

Lemma enum_class_of_Some (k : string) (c : enum_class) :
  enum_class_of k = Some c <-> (k, c) ∈ enum_fields.
Proof.
  unfold enum_class_of. symmetry. apply elem_of_list_to_map, enum_fields_NoDup.
Qed.

Lemma enum_class_of_None (k : string) :
  enum_class_of k = None <-> k ∉ enum_fields.*1.
Proof.
  unfold enum_class_of. symmetry. apply not_elem_of_list_to_map.
Qed.

(** A member is encoded as its tag and the tag is decoded as the member. *)
Lemma enum_getitem_encode (c : enum_class) (u : value) :
  member_of c u -> enum_getitem c (encode_value u) = Ok u.
Proof. destruct c, u as [| | | | | |[]|[]|[]|[]]; done. Qed.

Lemma enum_getitem_member (c : enum_class) (key x : value) :
  enum_getitem c key = Ok x -> member_of c x.
Proof.
  intros Hget. destruct (enum_getitem_Ok_str _ _ _ Hget) as [v ->].
  revert Hget. unfold enum_getitem. cbn [hashable].
  destruct c; destruct (member_named _ _ v);
    cbn [fmap option_fmap option_map]; by intros [= <-].
Qed.

(** Two records with the same attributes are the same record. *)
Ltac same_field H k :=
  let Hin := fresh in
  let E := fresh in
  assert (Hin : k ∈ dataclass_fields) by by_evaluation;
  pose proof (H k Hin) as E; clear Hin;
  vm_compute in E; injection E as ->.

Lemma getattr_ext (s1 s2 : TradingSignal) :
  (forall k, k ∈ dataclass_fields -> getattr s1 k = getattr s2 k) -> s1 = s2.
Proof.
  intros H. destruct s1, s2.
  same_field H "signal_id"%string. same_field H "timestamp"%string.
  same_field H "type"%string. same_field H "trade_type"%string.
  same_field H "symbol"%string. same_field H "side"%string.
  same_field H "order_type"%string.
  same_field H "amount_capital_percent"%string.
  same_field H "fixed_size"%string. same_field H "leverage"%string.
  same_field H "limit_price"%string. same_field H "stop_price"%string.
  same_field H "take_profit_price"%string. same_field H "slippage"%string.
  same_field H "network"%string. same_field H "contract_address"%string.
  same_field H "dex_id"%string. same_field H "reduce_only"%string.
  same_field H "message"%string. same_field H "source"%string.
  same_field H "strategy_name"%string. same_field H "timeframe"%string.
  same_field H "exchange"%string.
  reflexivity.
Qed.

Lemma getattr_with_timestamp (v : value) (self : TradingSignal) (k : string) :
  getattr (with_field "timestamp" v self) k
  = if decide (k = "timestamp"%string) then Some v else getattr self k.
Proof.
  destruct (decide (k ∈ dataclass_fields)) as [Hk|Hk].
  - unfold dataclass_fields in Hk.
    repeat (apply elem_of_cons in Hk as [->|Hk]; [reflexivity|]).
    by apply elem_of_nil in Hk.
  - rewrite !(proj2 (getattr_None _ k) Hk).
    destruct (decide _) as [->|]; [|done]. contradict Hk. by_evaluation.
Qed.

Lemma post_init_with_timestamp (v : value) (self : TradingSignal) :
  post_init (with_field "timestamp" v self) = post_init self.
Proof. reflexivity. Qed.

Lemma getattr_is_Some (self : TradingSignal) (k : string) :
  k ∈ dataclass_fields -> is_Some (getattr self k).
Proof.
  intros Hk. destruct (getattr self k) eqn:H; [done|].
  by apply getattr_None in H.
Qed.

(** ** Encoding, then decoding: what does come back *)

(** An annotated value that is not [None] and its text. *)
Lemma annotated_cases (k : string) (u : value) :
  annotated k u ->
  (exists c, (k, c) ∈ enum_fields /\ member_of c u /\ u <> VNone)
  \/ ((k ∉ enum_fields.*1) /\ (k ∈ decimal_fields) /\ exists d, u = VDecimal d)
  \/ ((k ∉ enum_fields.*1) /\ (k ∉ decimal_fields) /\ k <> "timestamp"%string
      /\ u <> VNone /\ encode_value u = u)
  \/ (k = "timestamp"%string /\ u <> VNone)
  \/ (u = VNone /\ (k ∉ required_fields) /\ k <> "reduce_only"%string
      /\ (k ∉ enum_fields.*1)).
Proof.
  unfold annotated. destruct (enum_class_of k) as [c|] eqn:Hc.
  - intros Hm. left. exists c. split; [by apply enum_class_of_Some|].
    split; [done|]. intros ->. by destruct c.
  - apply enum_class_of_None in Hc. case_bool_decide as Hd.
    + intros [[d ->]|[-> Hk]].
      * right. left. split; [done|]. split; [done|]. by exists d.
      * right. right. right. right. split; [done|].
        split; [|split; [by apply decimal_not_reduce_only|done]].
        intros Hr. unfold required_fields in Hr.
        repeat (apply elem_of_cons in Hr as [->|Hr];
                [first [done|revert Hd; by_evaluation]|]).
        by apply elem_of_nil in Hr.
    + case_bool_decide as Hr.
      * intros [b ->]. right. right. left. subst k. repeat split; try done.
      * intros [[t ->]|[[-> [t ->]]|[-> Hk]]].
        -- destruct (decide (k = "timestamp"%string)) as [->|Hts].
           ++ right. right. right. left. done.
           ++ right. right. left. done.
        -- right. right. right. left. done.
        -- right. right. right. right. done.
Qed.

(** X2: for a record that constructs and whose fields hold values of their
    annotated types, decoding the encoded record succeeds and restores
    every field, Decimals and enumeration members exactly, except the
    timestamp, which comes back as the text [to_dict] wrote for it.  A
    record whose timestamp already is text comes back whole. *)
Theorem encode_decode (self : TradingSignal) :
  typed self -> construct self = Ok self ->
  (from_dict (to_dict self)).2
  = Ok (with_field "timestamp" (encode_value (timestamp self)) self)
  /\ (forall t, timestamp self = VStr t ->
        (from_dict (to_dict self)).2 = Ok self).
Proof.
  intros Htyped Hcons.
  set (m := to_dict self).
  assert (Hm : forall k, m !! k
            = getattr self k
                ≫= (fun v => if is_None v then None else Some (encode_value v)))
    by (intros k; apply lookup_to_dict).
  clearbody m.
  assert (Hcase : forall k u, getattr self k = Some u -> _)
    by (intros k u Hu; exact (annotated_cases k u (Htyped k u Hu))).
  (* the first loop *)
  assert (He : (convert_enums enum_fields m).2 = Ok tt).
  { apply convert_enums_Ok_intro; [apply enum_fields_NoDup|].
    intros f c v Hf Hv. rewrite Hm in Hv.
    destruct (getattr self f) as [u|] eqn:Hu; [|done]. cbn [mbind option_bind] in Hv.
    destruct (is_None u) eqn:Hnn; [done|]. injection Hv as <-.
    exists u. apply enum_getitem_encode.
    pose proof (Htyped f u Hu) as Ha. unfold annotated in Ha.
    by rewrite (proj2 (enum_class_of_Some f c) Hf) in Ha. }
  destruct (convert_enums enum_fields m) as [m1 r1] eqn:Hrun1.
  cbn [snd] in He. subst r1.
  destruct (convert_enums_spec _ _ _ _ enum_fields_NoDup Hrun1)
    as (Hdom1 & Hout1 & _ & Hok1).
  specialize (Hok1 eq_refl).
  (* the second loop *)
  assert (Hd : (convert_decimals decimal_fields m1).2 = Ok tt).
  { apply convert_decimals_Ok_intro; [apply decimal_fields_NoDup|].
    intros f v Hf Hv Hnn.
    rewrite Hout1, Hm in Hv by (by apply decimal_not_enum).
    destruct (getattr self f) as [u|] eqn:Hu; [|done]. cbn [mbind option_bind] in Hv.
    destruct (is_None u) eqn:Hnu; [done|]. injection Hv as <-.
    destruct (Hcase f u Hu)
      as [(c & Hc & _)|[(_ & _ & d & ->)|[(_ & Hnd & _)|[[-> _]|[-> _]]]]].
    - exfalso. apply (decimal_not_enum f Hf), list_elem_of_fmap. by exists (f, c).
    - exists d. apply Decimal_of_str_str.
    - done.
    - exfalso. revert Hf. by_evaluation.
    - done. }
  destruct (convert_decimals decimal_fields m1) as [m2 r2] eqn:Hrun2.
  cbn [snd] in Hd. subst r2.
  destruct (convert_decimals_spec _ _ _ _ decimal_fields_NoDup Hrun2)
    as (Hdom2 & Hout2 & _ & Hok2).
  specialize (Hok2 eq_refl).
  assert (Hfd : from_dict m = (m2, TradingSignal_new m2)).
  { unfold from_dict. by rewrite Hrun1, Hrun2. }
  (* what the constructor is given *)
  assert (Hm2 : forall k u, getattr self k = Some u ->
            m2 !! k = if is_None u then None
                      else if decide (k = "timestamp"%string)
                           then Some (encode_value u) else Some u).
  { intros k u Hu.
    pose proof (Hm k) as Hmk. rewrite Hu in Hmk. cbn [mbind option_bind] in Hmk.
    destruct (Hcase k u Hu)
      as [(c & Hc & Hmem & Hnn)|[(Hne & Hkd & d & ->)
         |[(Hne & Hnd & Hts & Hnn & Henc)|[[-> Hnn]|(-> & _ & _ & Hne)]]]].
    - apply is_None_false in Hnn. rewrite Hnn in *.
      destruct (Hok1 k c _ Hc Hmk) as (x & Hx & Hm1).
      rewrite (enum_getitem_encode _ _ Hmem) in Hx. injection Hx as <-.
      rewrite decide_False.
      2:{ intros ->. revert Hc. by_evaluation. }
      rewrite Hout2; [done|]. intros Hkd.
      apply (decimal_not_enum k Hkd), list_elem_of_fmap. by exists (k, c).
    - cbn [is_None] in *. rewrite decide_False.
      2:{ intros ->. revert Hkd. by_evaluation. }
      rewrite <- Hout1 in Hmk by done.
      destruct (Hok2 k _ Hkd Hmk) as (d' & Hparse & ->); [done|].
      cbn [encode_value] in Hparse.
      rewrite to_Decimal_str, Decimal_of_str_str in Hparse.
      by injection Hparse as <-.
    - apply is_None_false in Hnn. rewrite Hnn in *.
      rewrite decide_False by done.
      rewrite Hout2, Hout1, Hmk, Henc by done. done.
    - apply is_None_false in Hnn. rewrite Hnn in *.
      rewrite decide_True by done.
      rewrite Hout2, Hout1, Hmk by by_evaluation. done.
    - cbn [is_None] in *. apply not_elem_of_dom.
      rewrite Hdom2, Hdom1. by apply not_elem_of_dom. }
  (* the binding succeeds *)
  destruct (bind_kwargs_Ok_intro m2) as [s' Hs'].
  { intros k Hk. rewrite Hdom2, Hdom1 in Hk. apply elem_of_dom in Hk as [v Hv].
    rewrite Hm in Hv. destruct (getattr self k) eqn:Hg; [|done].
    destruct (decide (k ∈ dataclass_fields)) as [|Hn]; [done|].
    apply (getattr_None self) in Hn. congruence. }
  { intros k Hk.
    assert (Hin : k ∈ dataclass_fields).
    { revert Hk. unfold required_fields. intros Hk.
      repeat (apply elem_of_cons in Hk as [->|Hk]; [by_evaluation|]).
      by apply elem_of_nil in Hk. }
    destruct (getattr_is_Some self k Hin) as [u Hu].
    rewrite (Hm2 k u Hu).
    destruct (Hcase k u Hu)
      as [(c & _ & _ & Hnn)|[(_ & _ & d & ->)
         |[(_ & _ & _ & Hnn & _)|[[_ Hnn]|(_ & Hnr & _)]]]].
    - apply is_None_false in Hnn. rewrite Hnn. by case_decide.
    - cbn [is_None]. by case_decide.
    - apply is_None_false in Hnn. rewrite Hnn. by case_decide.
    - apply is_None_false in Hnn. rewrite Hnn. by case_decide.
    - done. }
  (* the record is the one that was encoded, but for the timestamp *)
  assert (Heq : s' = with_field "timestamp" (encode_value (timestamp self)) self).
  { apply bind_kwargs_Ok in Hs' as [_ Hs']. apply getattr_ext. intros k Hk.
    rewrite (Hs' k Hk), getattr_with_timestamp.
    destruct (getattr_is_Some self k Hk) as [u Hu].
    rewrite (Hm2 k u Hu), Hu.
    destruct (is_None u) eqn:Hnu.
    - apply is_None_true in Hnu as ->. cbn [from_option id].
      destruct (Hcase k VNone Hu)
        as [(c & _ & _ & Hnn)|[(_ & _ & d & [=])
           |[(_ & _ & _ & Hnn & _)|[[_ Hnn]|(_ & Hnr & Hro & _)]]]]; try done.
      rewrite field_default_other by done.
      case_decide as Hts; [|done]. subst k. contradict Hnr. by_evaluation.
    - case_decide as Hts; cbn [from_option id]; [|done]. subst k.
      change (getattr self "timestamp") with (Some (timestamp self)) in Hu.
      change (Some (timestamp self) = Some u) in Hu. congruence. }
  assert (Hres : (from_dict m).2
                 = Ok (with_field "timestamp" (encode_value (timestamp self)) self)).
  { rewrite Hfd. cbn [snd]. unfold TradingSignal_new.
    rewrite Hs'. cbn [mbind result_bind]. subst s'.
    apply construct_Ok. split; [|done].
    rewrite post_init_with_timestamp. by apply construct_Ok in Hcons as [? _]. }
  split; [done|]. intros t Ht. rewrite Hres. f_equal.
  apply getattr_ext. intros k Hk. rewrite getattr_with_timestamp.
  case_decide as Hts; [|done]. subst k.
  change (getattr self "timestamp") with (Some (timestamp self)).
  by rewrite Ht.
Qed.

Ltac annotated_by_evaluation :=
  unfold annotated;
  match goal with
  | |- context [enum_class_of ?k] =>
      let c := eval vm_compute in (enum_class_of k) in
      change (enum_class_of k) with c; cbv iota beta
  end;
  first
    [ exact I
    | rewrite bool_decide_eq_true_2 by by_evaluation;
      first [ left; by eexists | right; by split ]
    | rewrite bool_decide_eq_false_2 by by_evaluation;
      first
        [ rewrite bool_decide_eq_true_2 by done; by eexists
        | rewrite bool_decide_eq_false_2 by done;
          first
            [ left; by eexists
            | right; left; split; [done|by eexists]
            | right; right; split; [done|by_evaluation] ] ] ].

Lemma typed_signal_at_noon : typed signal_at_noon.
Proof.
  intros k v Hk.
  destruct (decide (k ∈ dataclass_fields)) as [Hin|Hn];
    [|apply (getattr_None signal_at_noon) in Hn; congruence].
  unfold dataclass_fields in Hin.
  repeat (apply elem_of_cons in Hin as [->|Hin];
          [vm_compute in Hk; injection Hk as <-; annotated_by_evaluation|]).
  by apply elem_of_nil in Hin.
Qed.

Lemma construct_signal_at_noon : construct signal_at_noon = Ok signal_at_noon.
Proof. by vm_compute. Qed.

Lemma encode_decode_witness :
  (from_dict (to_dict signal_at_noon)).2
  = Ok (with_field "timestamp" (VStr "2024-02-19T12:00:00Z") signal_at_noon).
Proof.
  exact (proj1 (encode_decode signal_at_noon typed_signal_at_noon
                  construct_signal_at_noon)).
Defined.

(** ** Decimals as text *)

(** X1: the text that [to_dict] writes for a Decimal ([str(value)]) is read
    back by [from_dict] ([Decimal(str(...))]) as the same Decimal: sign,
    digits and exponent, or the special value with its payload.  Distinct
    Decimals, such as 10.0 and 10.00, have distinct texts. *)
Theorem Decimal_text_roundtrip (d : Decimal) :
  to_Decimal (encode_value (VDecimal d)) = Ok d
  /\ (forall d', encode_value (VDecimal d') = encode_value (VDecimal d) -> d' = d).
Proof.
  cbn [encode_value]. split; [apply to_Decimal_Decimal|].
  intros d' [= H]. by apply Decimal_str_inj.
Qed.

(** ** What a decoded record holds *)

Lemma from_dict_steps (m : gmap string value) (s : TradingSignal) :
  (from_dict m).2 = Ok s ->
  exists m1, convert_enums enum_fields m = (m1, Ok tt)
    /\ convert_decimals decimal_fields m1 = ((from_dict m).1, Ok tt)
    /\ bind_kwargs (from_dict m).1 = Ok s /\ post_init s = Ok tt.
Proof. intros Hs. by apply from_dict_Ok, from_dict_snd. Qed.

(** An enumerated field of a decoded record holds a member of its class,
    the one named by the input. *)
Lemma from_dict_enum_field (m : gmap string value) (s : TradingSignal)
  (k : string) (c : enum_class) :
  (from_dict m).2 = Ok s -> (k, c) ∈ enum_fields ->
  exists v x, m !! k = Some v /\ enum_getitem c v = Ok x
    /\ getattr s k = Some x /\ member_of c x.
Proof.
  intros Hs Hk. destruct (from_dict_steps m s Hs) as (m1 & He & Hd & Hbind & _).
  destruct (convert_enums_spec _ _ _ _ enum_fields_NoDup He) as (Hdom1 & _ & _ & Hok1).
  destruct (convert_decimals_spec _ _ _ _ decimal_fields_NoDup Hd) as (Hdom2 & Hout2 & _).
  assert (Hke : k ∈ enum_fields.*1) by (apply list_elem_of_fmap; by exists (k, c)).
  assert (Hreq : k ∈ required_fields).
  { revert Hke. unfold enum_fields. cbn [fmap list_fmap fst]. intros Hke.
    repeat (apply elem_of_cons in Hke as [->|Hke]; [by_evaluation|]).
    by apply elem_of_nil in Hke. }
  assert (Hfield : k ∈ dataclass_fields).
  { revert Hke. unfold enum_fields. cbn [fmap list_fmap fst]. intros Hke.
    repeat (apply elem_of_cons in Hke as [->|Hke]; [by_evaluation|]).
    by apply elem_of_nil in Hke. }
  destruct (bind_kwargs_required _ _ k Hbind Hreq) as [x' Hx'].
  assert (Hin : k ∈ dom m).
  { rewrite <- Hdom1, <- Hdom2. apply elem_of_dom. by rewrite Hx'. }
  apply elem_of_dom in Hin as [v Hv].
  destruct (Hok1 eq_refl k c v Hk Hv) as (x & Hget & Hm1).
  exists v, x. split; [done|]. split; [done|].
  apply bind_kwargs_Ok in Hbind as [_ Hbind].
  rewrite (Hbind k Hfield), Hout2, Hm1.
  - split; [done|]. by apply enum_getitem_member in Hget.
  - intros Hkd. by apply (decimal_not_enum k Hkd).
Qed.

(** A decimal field of a decoded record holds a Decimal or [None]. *)
Lemma from_dict_decimal_field (m : gmap string value) (s : TradingSignal)
  (k : string) (v : value) :
  (from_dict m).2 = Ok s -> k ∈ decimal_fields -> getattr s k = Some v ->
  v = VNone \/ exists d, v = VDecimal d.
Proof.
  intros Hs Hk Hv. destruct (from_dict_steps m s Hs) as (m1 & He & Hd & Hbind & _).
  destruct (convert_decimals_spec _ _ _ _ decimal_fields_NoDup Hd)
    as (_ & _ & Hin & _).
  assert (Hfield : k ∈ dataclass_fields).
  { revert Hk. unfold decimal_fields. intros Hk.
    repeat (apply elem_of_cons in Hk as [->|Hk]; [by_evaluation|]).
    by apply elem_of_nil in Hk. }
  apply bind_kwargs_Ok in Hbind as [_ Hbind].
  rewrite (Hbind k Hfield) in Hv. injection Hv as <-.
  rewrite field_default_other by (by apply decimal_not_reduce_only).
  destruct ((from_dict m).1 !! k) as [x|] eqn:Hx; [|by left].
  cbn [from_option id].
  destruct (Hin k Hk) as [Heq|(w & d & Hw & Hnn & Hparse & Hd')].
  - destruct (is_None x) eqn:Hnx; [left; by apply is_None_true|].
    destruct (convert_decimals_spec _ _ _ _ decimal_fields_NoDup Hd)
      as (_ & _ & _ & Hok).
    rewrite Hx in Heq. symmetry in Heq.
    destruct (Hok eq_refl k x Hk Heq) as (d & _ & Hd'); [by apply is_None_false|].
    right. exists d. congruence.
  - right. exists d. congruence.
Qed.

(** X5: every record that [from_dict] returns satisfies the invariants of
    the data model, whatever the map held: its percentage is a Decimal of
    (0, 100], its four enumerated fields hold members of their classes, an
    EVM trade has a contract address, the price of the order type is
    present, and each decimal field holds a Decimal or [None]. *)
Theorem from_dict_valid (m : gmap string value) (s : TradingSignal) :
  (from_dict m).2 = Ok s ->
  percent_valid s
  /\ member_of cls_SignalType (type s)
  /\ member_of cls_TradeType (trade_type s)
  /\ member_of cls_Side (side s)
  /\ member_of cls_OrderType (order_type s)
  /\ (trade_type s = VTradeType EVM -> truthy (contract_address s) = true)
  /\ prices_present s
  /\ (forall k v, k ∈ decimal_fields -> getattr s k = Some v ->
        v = VNone \/ exists d, v = VDecimal d).
Proof.
  intros Hs. destruct (from_dict_steps m s Hs) as (m1 & _ & _ & _ & Hpost).
  apply post_init_Ok in Hpost as (Hp & Hca & Hprices).
  assert (Henum : forall k c x, (k, c) ∈ enum_fields ->
            getattr s k = Some x -> member_of c x).
  { intros k c x Hk Hx.
    destruct (from_dict_enum_field m s k c Hs Hk) as (_ & x' & _ & _ & Hx' & Hm).
    congruence. }
  split.
  - destruct (from_dict_decimal_field m s "amount_capital_percent"
                (amount_capital_percent s) Hs) as [Hn|[d Hd]];
      [by_evaluation|reflexivity| |].
    + rewrite Hn in Hp. discriminate Hp.
    + exists d. split; [done|]. rewrite Hd in Hp.
      by apply percent_in_range_true_inv.
  - split; [apply (Henum "type"%string); [by_evaluation|reflexivity]|].
    split; [apply (Henum "trade_type"%string); [by_evaluation|reflexivity]|].
    split; [apply (Henum "side"%string); [by_evaluation|reflexivity]|].
    split; [apply (Henum "order_type"%string); [by_evaluation|reflexivity]|].
    split; [done|]. split; [done|].
    intros k v. by apply (from_dict_decimal_field m).
Qed.

Lemma from_dict_valid_witness :
  percent_valid signal /\ member_of cls_OrderType (order_type signal).
Proof.
  pose proof (from_dict_valid signal_dict signal from_dict_signal_dict)
    as (H1 & _ & _ & _ & H5 & _).
  exact (conj H1 H5).
Defined.

(** ** Decoding twice *)

(** X3: [from_dict] can decode a given dictionary only once.  After a
    successful call the dictionary holds the member [SignalType.TRADE]
    under the key [type], where the lookup by name expects a string, so
    decoding the same dictionary again fails with [KeyError]. *)
Theorem from_dict_twice (m : gmap string value) (s : TradingSignal) :
  (from_dict m).2 = Ok s ->
  (from_dict m).1 !! "type"%string = Some (VSignalType TRADE)
  /\ (from_dict (from_dict m).1).2 = Err (KeyError (VSignalType TRADE)).
Proof.
  intros Hs.
  assert (Htype : (from_dict m).1 !! "type"%string = Some (VSignalType TRADE)).
  { destruct (from_dict_enum_field m s "type" cls_SignalType Hs)
      as (v & x & _ & _ & Hx & Hmem); [by_evaluation|].
    destruct (from_dict_steps m s Hs) as (_ & _ & _ & Hbind & _).
    apply bind_kwargs_Ok in Hbind as [_ Hbind].
    rewrite Hbind in Hx by by_evaluation.
    destruct ((from_dict m).1 !! "type"%string) as [y|] eqn:Hy.
    - cbn [from_option id] in Hx. injection Hx as ->.
      by destruct x as [| | | | | |[]| | |].
    - cbn [from_option id] in Hx. injection Hx as <-. done. }
  split; [done|]. apply from_dict_enum_error.
  unfold enum_fields. cbn [convert_enums]. by rewrite Htype.
Qed.

Lemma from_dict_twice_witness :
  (from_dict signal_dict).1 !! "type"%string = Some (VSignalType TRADE)
  /\ (from_dict (from_dict signal_dict).1).2 = Err (KeyError (VSignalType TRADE)).
Proof. exact (from_dict_twice signal_dict signal from_dict_signal_dict). Defined.

(** ** The failures of decoding *)

(** The first loop raises the exception of the lookup of the value of the
    field at which it stops. *)
Lemma convert_enums_Err (fs : list (string * enum_class))
  (m : gmap string value) (e : exn) :
  NoDup fs.*1 -> (convert_enums fs m).2 = Err e ->
  exists f c v, (f, c) ∈ fs /\ m !! f = Some v /\ e = lookup_error v.
Proof.
  intros Hnd Hrun.
  destruct (convert_enums_fails fs m Hnd)
    as (pre & f & c & key & post & -> & Hk & _ & _ & Hres).
  - destruct (convert_enums (fs) m) as [m1 r1] eqn:Hc. cbn [snd] in Hrun. subst r1.
    assert (Hnot : ~ (forall f c v, (f, c) ∈ fs -> m !! f = Some v ->
                        exists x, enum_getitem c v = Ok x)).
    { intros Hall. pose proof (convert_enums_Ok_intro fs m Hnd Hall) as Hok.
      rewrite Hc in Hok. discriminate Hok. }
    clear Hc. revert m Hnot. induction fs as [|[g c0] fs IH]; intros m Hnot.
    + contradict Hnot. intros f c v Hin. by apply elem_of_nil in Hin.
    + cbn [fmap list_fmap fst] in Hnd. apply NoDup_cons in Hnd as [Hg Hnd].
      destruct (m !! g) as [w|] eqn:Hw.
      * destruct (enum_getitem c0 w) as [x|e'] eqn:Hget.
        -- destruct (IH Hnd m) as (f & c & v & Hin & Hv & Hgetv).
           { intros Hall. apply Hnot. intros f c v [[= -> ->]|Hin]%elem_of_cons Hv.
             - exists x. congruence.
             - by apply (Hall f c v). }
           exists f, c, v. split; [by right|done].
        -- exists g, c0, w. split; [by left|]. split; [done|].
           by rewrite (enum_getitem_Err _ _ _ Hget) in Hget.
      * destruct (IH Hnd m) as (f & c & v & Hin & Hv & Hgetv).
        { intros Hall. apply Hnot. intros f c v [[= -> ->]|Hin]%elem_of_cons Hv.
          - congruence.
          - by apply (Hall f c v). }
        exists f, c, v. split; [by right|done].
  - rewrite Hres in Hrun. injection Hrun as <-.
    exists f, c, key. split; [|done]. apply elem_of_app. right. by left.
Qed.

Lemma post_init_Err (self : TradingSignal) (e : exn) :
  post_init self = Err e ->
  e = TypeError \/ e = InvalidOperation
  \/ exists msg, e = ValueError msg /\ msg ∈ validation_messages.
Proof.
  unfold post_init.
  destruct (percent_in_range _) as [[|]|e'] eqn:Hp; cbn [mbind result_bind negb].
  - repeat case_match; intros [= <-]; right; right; eexists;
      (split; [reflexivity|]); unfold validation_messages;
      repeat first [by left|right].
  - intros [= <-]. right. right. eexists. split; [reflexivity|]. by left.
  - intros [= <-]. destruct (percent_in_range_Err _ _ Hp) as [->| ->]; auto.
Qed.

(** The second loop raises the exception of the conversion of a decimal
    field of the dictionary that is present and not [None]. *)
Lemma convert_decimals_fails (fs : list string) (m : gmap string value)
  (e : exn) :
  NoDup fs -> (convert_decimals fs m).2 = Err e ->
  exists f v, f ∈ fs /\ m !! f = Some v /\ v <> VNone /\ to_Decimal v = Err e.
Proof.
  revert m. induction fs as [|g fs IH]; intros m Hnd; cbn [convert_decimals].
  - done.
  - apply NoDup_cons in Hnd as [Hg Hnd].
    assert (Hrest : forall m', (forall f, f ∈ fs -> m' !! f = m !! f) ->
              (convert_decimals fs m').2 = Err e ->
              exists f v, f ∈ g :: fs /\ m !! f = Some v /\ v <> VNone
                /\ to_Decimal v = Err e).
    { intros m' Hsame Hrun.
      destruct (IH m' Hnd Hrun) as (f & v & Hf & Hv & Hnn & Hbad).
      exists f, v. split; [by right|]. by rewrite <- Hsame. }
    destruct (m !! g) as [w|] eqn:Hw; [|by apply Hrest].
    destruct (is_None w) eqn:Hnone; [by apply Hrest|].
    destruct (to_Decimal w) as [d|e'] eqn:Hconv.
    + apply Hrest. intros f Hf. apply lookup_insert_ne. by intros ->.
    + cbn [snd]. intros [= <-]. exists g, w. split; [by left|].
      split; [done|]. split; [by apply is_None_false|done].
Qed.

(** The failure of the second loop, read on the input of [from_dict]:
    [InvalidOperation], or the [ValueError] of [str] when a decimal field
    holds a native integer of more than 4300 digits. *)
Lemma from_dict_decimal_error (m m1 : gmap string value) (e : exn) :
  convert_enums enum_fields m = (m1, Ok tt) ->
  (convert_decimals decimal_fields m1).2 = Err e ->
  e = InvalidOperation
  \/ (e = ValueError int_max_str_digits_msg
      /\ exists f n, f ∈ decimal_fields /\ m !! f = Some (VInt n)
           /\ exceeds_max_str_digits n = true).
Proof.
  intros He Hd.
  destruct (convert_enums_spec _ _ _ _ enum_fields_NoDup He) as (_ & Hout1 & _).
  destruct (convert_decimals_fails _ _ _ decimal_fields_NoDup Hd)
    as (f & v & Hf & Hv & _ & Hbad).
  apply to_Decimal_Err in Hbad as [->|(-> & n & -> & Hn)]; [by left|].
  right. split; [done|]. exists f, n. split; [done|]. split; [|done].
  rewrite <- Hout1; [done|]. by apply decimal_not_enum.
Qed.

(** X7: [from_dict] fails in five ways only: with the exception of the
    lookup of an enumerated field of the input ([KeyError] with the value
    of the field, or [TypeError] when that value cannot be hashed), with
    [decimal.InvalidOperation], with the [ValueError] of [str] when a
    decimal field holds a native integer of more than 4300 digits, with
    [TypeError], or with [ValueError] and one of the five messages of
    [__post_init__]. *)
Theorem from_dict_errors (m : gmap string value) (e : exn) :
  (from_dict m).2 = Err e ->
  (exists f c key, (f, c) ∈ enum_fields /\ m !! f = Some key
     /\ e = lookup_error key)
  \/ e = InvalidOperation
  \/ (e = ValueError int_max_str_digits_msg
      /\ exists f n, f ∈ decimal_fields /\ m !! f = Some (VInt n)
           /\ exceeds_max_str_digits n = true)
  \/ e = TypeError
  \/ (exists msg, e = ValueError msg /\ msg ∈ validation_messages).
Proof.
  unfold from_dict.
  destruct (convert_enums enum_fields m) as [m1 [[]|e1]] eqn:He; cbn [snd].
  - destruct (convert_decimals decimal_fields m1) as [m2 [[]|e2]] eqn:Hd; cbn [snd].
    + unfold TradingSignal_new. destruct (bind_kwargs m2) as [s|e3] eqn:Hb;
        cbn [mbind result_bind].
      * intros Hc%construct_Err.
        destruct (post_init_Err _ _ Hc) as [->|[->|H]]; auto 6.
      * intros [= <-]. rewrite (bind_kwargs_Err _ _ Hb). auto 6.
    + intros [= <-]. right.
      destruct (from_dict_decimal_error m m1 e2 He) as [->|H]; [|by left|].
      * by rewrite Hd.
      * right. by left.
  - intros [= <-]. left.
    apply (convert_enums_Err enum_fields m); [apply enum_fields_NoDup|].
    by rewrite He.
Qed.

Lemma from_dict_oversize_leverage :
  (from_dict oversize_leverage).2 = Err (ValueError int_max_str_digits_msg).
Proof. by vm_compute. Qed.

Lemma from_dict_errors_witness :
  (exists f c key, (f, c) ∈ enum_fields /\ oversize_leverage !! f = Some key
     /\ ValueError int_max_str_digits_msg = lookup_error key)
  \/ ValueError int_max_str_digits_msg = InvalidOperation
  \/ (ValueError int_max_str_digits_msg = ValueError int_max_str_digits_msg
      /\ exists f n, f ∈ decimal_fields /\ oversize_leverage !! f = Some (VInt n)
           /\ exceeds_max_str_digits n = true)
  \/ ValueError int_max_str_digits_msg = TypeError
  \/ (exists msg, ValueError int_max_str_digits_msg = ValueError msg
        /\ msg ∈ validation_messages).
Proof.
  exact (from_dict_errors oversize_leverage _ from_dict_oversize_leverage).
Defined.

(** X4: a decimal field that is present, is not [None] and does not read as
    a number makes decoding fail in the second loop, provided the
    enumerated fields are valid (they are converted first).  The failure is
    [decimal.InvalidOperation], unless a decimal field holds a native
    integer of more than 4300 digits: the conversion of that field may be
    reached first, and then the failure is the [ValueError] of [str].
    When no decimal field holds such an integer, the failure is
    [decimal.InvalidOperation]. *)
Theorem from_dict_invalid_decimal (m : gmap string value) (f : string)
  (v : value) :
  (forall g c w, (g, c) ∈ enum_fields -> m !! g = Some w ->
     exists x, enum_getitem c w = Ok x) ->
  f ∈ decimal_fields -> m !! f = Some v -> v <> VNone ->
  to_Decimal v = Err InvalidOperation ->
  ((from_dict m).2 = Err InvalidOperation
   \/ ((from_dict m).2 = Err (ValueError int_max_str_digits_msg)
       /\ exists g n, g ∈ decimal_fields /\ m !! g = Some (VInt n)
            /\ exceeds_max_str_digits n = true))
  /\ ((forall g n, g ∈ decimal_fields -> m !! g = Some (VInt n) ->
         exceeds_max_str_digits n = false) ->
      (from_dict m).2 = Err InvalidOperation).
Proof.
  intros Henum Hf Hv Hnn Hbad.
  pose proof (convert_enums_Ok_intro enum_fields m enum_fields_NoDup Henum) as He.
  assert (Hcases : (from_dict m).2 = Err InvalidOperation
            \/ ((from_dict m).2 = Err (ValueError int_max_str_digits_msg)
                /\ exists g n, g ∈ decimal_fields /\ m !! g = Some (VInt n)
                     /\ exceeds_max_str_digits n = true)).
  { unfold from_dict.
    destruct (convert_enums enum_fields m) as [m1 r1] eqn:Hrun1.
    cbn [snd] in He. subst r1.
    destruct (convert_enums_spec _ _ _ _ enum_fields_NoDup Hrun1)
      as (_ & Hout1 & _).
    destruct (convert_decimals decimal_fields m1) as [m2 [[]|e2]] eqn:Hrun2;
      cbn [snd].
    - destruct (convert_decimals_spec _ _ _ _ decimal_fields_NoDup Hrun2)
        as (_ & _ & _ & Hok).
      destruct (Hok eq_refl f v Hf) as (d & Hd & _); [|done|congruence].
      rewrite Hout1; [done|]. by apply decimal_not_enum.
    - destruct (from_dict_decimal_error m m1 e2 Hrun1) as [->|[-> H]].
      + by rewrite Hrun2.
      + by left.
      + by right. }
  split; [done|]. intros Hsmall.
  destruct Hcases as [H|(_ & g & n & Hg & Hgn & Hn)]; [done|].
  rewrite (Hsmall g n Hg Hgn) in Hn. discriminate Hn.
Qed.

Lemma not_a_number_no_int (g : string) (n : Z) :
  g ∈ decimal_fields -> not_a_number !! g = Some (VInt n) ->
  exceeds_max_str_digits n = false.
Proof.
  intros Hg Hn. unfold decimal_fields in Hg.
  repeat (apply elem_of_cons in Hg as [->|Hg];
          [vm_compute in Hn; discriminate Hn|]).
  by apply elem_of_nil in Hg.
Qed.

Lemma not_a_number_enums (g : string) (c : enum_class) (w : value) :
  (g, c) ∈ enum_fields -> not_a_number !! g = Some w ->
  exists x, enum_getitem c w = Ok x.
Proof.
  intros Hg Hw. unfold enum_fields in Hg.
  repeat (apply elem_of_cons in Hg as [[= -> ->]|Hg];
          [vm_compute in Hw; injection Hw as <-; by eexists|]).
  by apply elem_of_nil in Hg.
Qed.

Lemma not_a_number_limit_price :
  not_a_number !! "limit_price"%string = Some (VStr "not-a-number").
Proof. by vm_compute. Qed.

Lemma not_a_number_unreadable :
  to_Decimal (VStr "not-a-number") = Err InvalidOperation.
Proof. by vm_compute. Qed.

Lemma from_dict_invalid_decimal_witness :
  (from_dict not_a_number).2 = Err InvalidOperation.
Proof.
  exact (proj2 (from_dict_invalid_decimal not_a_number "limit_price"
                  (VStr "not-a-number") not_a_number_enums
                  ltac:(by_evaluation) not_a_number_limit_price
                  ltac:(discriminate) not_a_number_unreadable)
           not_a_number_no_int).
Defined.

(** X6: decoding never succeeds on a map that lacks a field without a
    default or that holds a key that is no field; when the enumerated and
    the decimal fields convert, the failure is the [TypeError] of the
    constructor call. *)
Theorem from_dict_keys (m : gmap string value) :
  (exists k, k ∈ required_fields /\ m !! k = None)
  \/ (exists k, k ∈ dom m /\ k ∉ dataclass_fields) ->
  (forall s, (from_dict m).2 <> Ok s)
  /\ ((forall g c w, (g, c) ∈ enum_fields -> m !! g = Some w ->
         exists x, enum_getitem c w = Ok x) ->
      (forall f v, f ∈ decimal_fields -> m !! f = Some v -> v <> VNone ->
         exists d, to_Decimal v = Ok d) ->
      (from_dict m).2 = Err TypeError).
Proof.
  intros Hbad.
  assert (Hfail : forall s, bind_kwargs (from_dict m).1 <> Ok s).
  { intros s Hbind. pose proof (from_dict_dom m) as Hdom.
    destruct Hbad as [(k & Hk & Hnone)|(k & Hk & Hnf)].
    - destruct (bind_kwargs_required _ _ k Hbind Hk) as [v Hv].
      assert (Hin : k ∈ dom m) by (rewrite <- Hdom; apply elem_of_dom; by rewrite Hv).
      apply elem_of_dom in Hin as [w Hw]. congruence.
    - apply bind_kwargs_Ok in Hbind as [Hkeys _]. apply Hnf, Hkeys.
      by rewrite Hdom. }
  split.
  - intros s Hs. destruct (from_dict_steps m s Hs) as (_ & _ & _ & Hbind & _).
    by apply (Hfail s).
  - intros Henum Hdec.
    pose proof (convert_enums_Ok_intro enum_fields m enum_fields_NoDup Henum) as He.
    assert (Hd : (convert_decimals decimal_fields
                    (convert_enums enum_fields m).1).2 = Ok tt).
    { apply convert_decimals_Ok_intro; [apply decimal_fields_NoDup|].
      intros f v Hf Hv. apply (Hdec f v Hf).
      destruct (convert_enums enum_fields m) as [m1 r1] eqn:Hrun1.
      destruct (convert_enums_spec _ _ _ _ enum_fields_NoDup Hrun1) as (_ & Hout1 & _).
      cbn [fst] in Hv. rewrite <- Hout1; [done|]. by apply decimal_not_enum. }
    rewrite (from_dict_Ok_intro m He Hd). unfold TradingSignal_new.
    destruct (bind_kwargs (from_dict m).1) as [s|e] eqn:Hb.
    + by destruct (Hfail s).
    + by rewrite (bind_kwargs_Err _ _ Hb).
Qed.

Lemma no_message_enums (g : string) (c : enum_class) (w : value) :
  (g, c) ∈ enum_fields -> no_message !! g = Some w ->
  exists x, enum_getitem c w = Ok x.
Proof.
  intros Hg Hw. unfold enum_fields in Hg.
  repeat (apply elem_of_cons in Hg as [[= -> ->]|Hg];
          [vm_compute in Hw; injection Hw as <-; by eexists|]).
  by apply elem_of_nil in Hg.
Qed.

Lemma no_message_decimals (f : string) (v : value) :
  f ∈ decimal_fields -> no_message !! f = Some v -> v <> VNone ->
  exists d, to_Decimal v = Ok d.
Proof.
  intros Hf Hv _. unfold decimal_fields in Hf.
  repeat (apply elem_of_cons in Hf as [->|Hf];
          [vm_compute in Hv;
           first [discriminate Hv
                 |injection Hv as <-; eexists; vm_compute; reflexivity]|]).
  by apply elem_of_nil in Hf.
Qed.

Lemma no_message_lookup : no_message !! "message"%string = None.
Proof. by vm_compute. Qed.

Lemma from_dict_keys_witness : (from_dict no_message).2 = Err TypeError.
Proof.
  apply (from_dict_keys no_message).
  - left. exists "message"%string. split; [by_evaluation|exact no_message_lookup].
  - exact no_message_enums.
  - exact no_message_decimals.
Defined.

(** ** What the encoder writes *)

Lemma kept_by_to_dict_cases (v : value) :
  kept_by_to_dict v <-> is_None v = false /\ encode_value v = v.
Proof.
  unfold kept_by_to_dict. split.
  - intros (Hn & Hm & Ht & Hd). destruct v; try done.
    + by destruct (Hd d).
    + by destruct (Ht t).
    + by destruct (Hm cls_SignalType).
    + by destruct (Hm cls_TradeType).
    + by destruct (Hm cls_Side).
    + by destruct (Hm cls_OrderType).
  - intros [Hn He]. destruct v; try discriminate Hn; try discriminate He;
      (split; [done|]); (split; [intros [] H; exact H|]);
      split; intros ?; discriminate.
Qed.

(** X8: [to_dict] leaves no [None], no enumeration member, no datetime and
    no Decimal in the dictionary it returns, whatever the fields of the
    record hold; and a field whose value is none of these is passed
    through: the dictionary holds that very value under the field's
    name. *)
Theorem to_dict_converts (self : TradingSignal) (k : string) :
  (forall v, to_dict self !! k = Some v -> kept_by_to_dict v)
  /\ (forall u, getattr self k = Some u -> kept_by_to_dict u ->
        to_dict self !! k = Some u).
Proof.
  split.
  - intros v. rewrite lookup_to_dict.
    destruct (getattr self k) as [u|]; [|done].
    cbn [mbind option_bind]. intros Hv. apply kept_by_to_dict_cases.
    destruct u; cbn [is_None encode_value] in Hv;
      first [discriminate Hv|by injection Hv as <-].
  - intros u Hu [Hn He]%kept_by_to_dict_cases.
    rewrite lookup_to_dict, Hu. cbn [mbind option_bind]. by rewrite Hn, He.
Qed.

Lemma lookup_error_cases (key : value) :
  (hashable key = true /\ lookup_error key = KeyError key)
  \/ (lookup_error key = TypeError
      /\ exists s p, key = VDecimal (NaN s true p)).
Proof.
  unfold lookup_error.
  destruct key as [| | | |[| |s [|] p]| | | | |]; cbn [hashable];
    first [by left|right; split; [done|]; by exists s, p].
Qed.

Lemma from_dict_unhashable_type : (from_dict unhashable_type).2 = Err TypeError.
Proof. by vm_compute. Qed.

(** X9: the lookup of an enumeration member by name, [enum_class[key]],
    succeeds exactly when the key is a string of the closed set of tags,
    and then gives the member of that class whose value is the tag.  Any
    other key makes the lookup fail: with [TypeError] when the key cannot
    be hashed, which in this universe of values is the case of a signaling
    NaN and of nothing else, and with [KeyError(key)] for every other key,
    a member itself included. *)
Theorem enum_getitem_exact (c : enum_class) (key : value) :
  (forall x, enum_getitem c key = Ok x <->
     exists v, key = VStr v /\ v ∈ enum_tags c /\ member_of c x
       /\ encode_value x = VStr v)
  /\ ((forall v, key = VStr v -> v ∉ enum_tags c) ->
      enum_getitem c key = Err (lookup_error key))
  /\ (lookup_error key = KeyError key
      \/ (lookup_error key = TypeError
          /\ exists s p, key = VDecimal (NaN s true p))).
Proof.
  split; [|split; [|destruct (lookup_error_cases key) as [[_ H]|H]; auto]].
  - intros x. split.
    + intros Hget. pose proof (enum_getitem_member _ _ _ Hget) as Hmem.
      apply enum_getitem_Ok in Hget as (v & -> & Hv & Henc). by exists v.
    + intros (v & -> & _ & Hmem & Henc). rewrite <- Henc.
      by apply enum_getitem_encode.
  - intros Hno. destruct (enum_getitem c key) as [x|e] eqn:Hget.
    + apply enum_getitem_Ok in Hget as (v & -> & Hv & _). by destruct (Hno v).
    + by rewrite (enum_getitem_Err _ _ _ Hget).
Qed.

(** ** The percentage check on other values *)

Lemma percent_in_range_int (n : Z) :
  percent_in_range (VInt n) = Ok (bool_decide (0 < n <= 100)).
Proof.
  unfold percent_in_range, int_lt, le_int. cbn [int_compare mbind result_bind].
  destruct (Z.compare_spec 0 n); destruct (Z.compare_spec 100 n);
    cbn [mbind result_bind]; f_equal; symmetry;
    first [apply bool_decide_eq_true_2; lia|apply bool_decide_eq_false_2; lia].
Qed.

(** X10: the first check of [__post_init__] compares the percentage as it
    is: [None] or a string makes construction fail with [TypeError], a NaN
    with [decimal.InvalidOperation], neither with the [ValueError] of the
    check; an integer is accepted exactly when it lies in 1 .. 100. *)
Theorem percent_type_errors (self : TradingSignal) :
  (amount_capital_percent self = VNone
   \/ (exists t, amount_capital_percent self = VStr t) ->
   construct self = Err TypeError)
  /\ (forall s sig p, amount_capital_percent self = VDecimal (NaN s sig p) ->
        construct self = Err InvalidOperation)
  /\ (forall n, amount_capital_percent self = VInt n ->
        (construct self = Err (ValueError percent_msg) <-> ~ (0 < n <= 100))
        /\ (other_invariants self ->
            (construct self = Ok self <-> 0 < n <= 100))).
Proof.
  split; [|split].
  - intros H. apply construct_Err. unfold post_init.
    by destruct H as [->|[t ->]].
  - intros s sig p H. apply construct_Err. unfold post_init. by rewrite H.
  - intros n H. split.
    + rewrite construct_Err, post_init_percent_error, H, percent_in_range_int.
      split.
      * intros [= Hb]. by apply bool_decide_eq_false in Hb.
      * intros Hn. by rewrite bool_decide_eq_false_2.
    + intros Ho. rewrite construct_Ok, (other_invariants_post_init _ Ho), H,
        percent_in_range_int. split.
      * intros [[= Hb] _]. by apply bool_decide_eq_true in Hb.
      * intros Hn. by rewrite bool_decide_eq_true_2.
Qed.

(** ** Native numbers in decimal fields *)

(** [Decimal(str(n))] for an integer [n] of at most 4300 digits is the
    integer, with exponent 0. *)
Lemma Decimal_of_int (n : Z) :
  exceeds_max_str_digits n = false ->
  to_Decimal (VInt n) = Ok (Finite (n <? 0) (Z.abs_N n) 0).
Proof.
  intros Hn. unfold to_Decimal. cbn [py_str]. rewrite Hn.
  cbn [mbind result_bind]. unfold Decimal_of_str, int_str.
  rewrite chars_of_str_of.
  pose proof (digits_of_N_nonempty (Z.abs_N n)) as Hne.
  pose proof (digits_of_N_digits (Z.abs_N n)) as Hds.
  pose proof (int_of_digits_of_N (Z.abs_N n)) as Hv.
  set (ds := digits_of_N (Z.abs_N n)) in *.
  assert (Hparse : forall sg, parse_unsigned sg ds
                              = Some (Finite sg (Z.abs_N n) 0)).
  { intros sg. rewrite <- (app_nil_r ds).
    rewrite (parse_unsigned_integer sg ds [] 0); [by rewrite Hv|done|done|by left|done]. }
  assert (Hplain : Forall plain ((if n <? 0 then ["-"%char] else []) ++ ds)).
  { apply Forall_app. split; [|by apply digits_plain].
    destruct (n <? 0); repeat constructor; done. }
  unfold parse_decimal.
  rewrite strip_plain, remove_underscores_plain;
    [|eapply Forall_impl; [exact Hplain|by intros c [_ ?]]
     |eapply Forall_impl; [exact Hplain|by intros c [? _]]].
  destruct (n <? 0); cbn [app].
  - unfold split_sign. rewrite eat_eq. by rewrite Hparse.
  - destruct ds as [|c0 r]; [done|].
    rewrite split_sign_digit by (by inversion Hds). by rewrite Hparse.
Qed.

Lemma Decimal_of_int_inv (n : Z) (d : Decimal) :
  to_Decimal (VInt n) = Ok d -> d = Finite (n <? 0) (Z.abs_N n) 0.
Proof.
  destruct (exceeds_max_str_digits n) eqn:Hn.
  - unfold to_Decimal. cbn [py_str]. by rewrite Hn.
  - rewrite Decimal_of_int by done. by intros [= <-].
Qed.

(** What a successful decoding binds to a decimal field that the input
    holds with a value other than [None]. *)
Lemma from_dict_decimal_value (m : gmap string value) (s : TradingSignal)
  (f : string) (v : value) :
  (from_dict m).2 = Ok s -> f ∈ decimal_fields -> m !! f = Some v ->
  v <> VNone ->
  exists d, to_Decimal v = Ok d /\ getattr s f = Some (VDecimal d).
Proof.
  intros Hs Hf Hv Hnn.
  destruct (from_dict_steps m s Hs) as (m1 & He & Hd & Hbind & _).
  destruct (convert_enums_spec _ _ _ _ enum_fields_NoDup He) as (_ & Hout1 & _).
  destruct (convert_decimals_spec _ _ _ _ decimal_fields_NoDup Hd)
    as (_ & _ & _ & Hok).
  rewrite <- Hout1 in Hv by (by apply decimal_not_enum).
  destruct (Hok eq_refl f v Hf Hv Hnn) as (d & Hparse & Hd').
  exists d. split; [done|].
  apply bind_kwargs_Ok in Hbind as [_ Hbind]. rewrite Hbind, Hd'; [done|].
  revert Hf. unfold decimal_fields. intros Hf.
  repeat (apply elem_of_cons in Hf as [->|Hf]; [by_evaluation|]).
  by apply elem_of_nil in Hf.
Qed.

(** X11: a decimal field may be given as a native integer or as a Decimal:
    the decoded record holds the same integer as a Decimal with exponent
    0, and the same Decimal. *)
Theorem from_dict_native_numbers (m : gmap string value) (s : TradingSignal)
  (f : string) :
  (from_dict m).2 = Ok s -> f ∈ decimal_fields ->
  (forall n, m !! f = Some (VInt n) ->
     getattr s f = Some (VDecimal (Finite (n <? 0) (Z.abs_N n) 0)))
  /\ (forall d, m !! f = Some (VDecimal d) -> getattr s f = Some (VDecimal d)).
Proof.
  intros Hs Hf. split.
  - intros n Hv.
    destruct (from_dict_decimal_value m s f _ Hs Hf Hv) as (d & Hparse & ->);
      [done|].
    by rewrite (Decimal_of_int_inv _ _ Hparse).
  - intros d Hv.
    destruct (from_dict_decimal_value m s f _ Hs Hf Hv) as (d' & Hparse & ->);
      [done|].
    rewrite to_Decimal_Decimal in Hparse. by injection Hparse as <-.
Qed.

Lemma native_leverage_lookup : native_leverage !! "leverage"%string = Some (VInt 3).
Proof. by vm_compute. Qed.

Lemma from_dict_native_leverage :
  (from_dict native_leverage).2
  = Ok (with_field "leverage" (VDecimal (Finite false 3 0)) signal).
Proof. by vm_compute. Qed.

Lemma from_dict_native_numbers_witness :
  getattr (with_field "leverage" (VDecimal (Finite false 3 0)) signal) "leverage"
  = Some (VDecimal (Finite false 3 0)).
Proof.
  exact (proj1 (from_dict_native_numbers native_leverage _ "leverage"
                  from_dict_native_leverage ltac:(by_evaluation))
           3 native_leverage_lookup).
Defined.

(** ** Entries that are not converted *)

(** X12: [from_dict] converts and checks nothing but the enumerated and
    the decimal fields: any other field of the decoded record holds the
    value of the input as it is, of whatever type (the timestamp stays the
    text it was), or the default of the field when the key is absent. *)
Theorem from_dict_passes_through (m : gmap string value) (s : TradingSignal)
  (k : string) :
  (from_dict m).2 = Ok s ->
  k ∈ dataclass_fields -> k ∉ enum_fields.*1 -> k ∉ decimal_fields ->
  getattr s k = Some (default (field_default k) (m !! k)).
Proof.
  intros Hs Hk Hne Hnd.
  destruct (from_dict_steps m s Hs) as (_ & _ & _ & Hbind & _).
  apply bind_kwargs_Ok in Hbind as [_ Hbind].
  by rewrite (Hbind k Hk), from_dict_untouched.
Qed.

Lemma from_dict_passes_through_witness :
  getattr signal "timestamp"
  = Some (default (field_default "timestamp")
            (signal_dict !! "timestamp"%string)).
Proof.
  exact (from_dict_passes_through signal_dict signal "timestamp"
           from_dict_signal_dict
           ltac:(by_evaluation) ltac:(by_evaluation) ltac:(by_evaluation)).
Defined.

(** X13: an entry of the input that holds [None] is decoded as an absent
    value, and the encoding of the decoded record has no such key. *)
Theorem None_entry_dropped (m : gmap string value) (s : TradingSignal)
  (k : string) :
  (from_dict m).2 = Ok s -> m !! k = Some VNone ->
  getattr s k = Some VNone /\ to_dict s !! k = None.
Proof.
  intros Hs Hk.
  assert (Hg : getattr s k = Some VNone).
  { destruct (from_dict_steps m s Hs) as (m1 & He & Hd & Hbind & _).
    destruct (convert_enums_spec _ _ _ _ enum_fields_NoDup He)
      as (_ & Hout1 & _ & Hok1).
    destruct (convert_decimals_spec _ _ _ _ decimal_fields_NoDup Hd)
      as (_ & Hout2 & Hin2 & _).
    assert (Hne : k ∉ enum_fields.*1).
    { intros ([k' c] & -> & Hkc)%list_elem_of_fmap. cbn [fst] in *.
      by destruct (Hok1 eq_refl _ _ _ Hkc Hk) as (x & Hx & _). }
    assert (Hm2 : (from_dict m).1 !! k = Some VNone).
    { destruct (decide (k ∈ decimal_fields)) as [Hkd|Hkd].
      - destruct (Hin2 k Hkd) as [->|(v & d & Hv & Hnn & _)].
        + by rewrite Hout1.
        + rewrite Hout1 in Hv by done. congruence.
      - by rewrite Hout2, Hout1. }
    apply bind_kwargs_Ok in Hbind as [Hkeys Hbind].
    rewrite Hbind, Hm2; [done|]. apply Hkeys, elem_of_dom. by rewrite Hm2. }
  split; [done|]. by rewrite lookup_to_dict, Hg.
Qed.

Lemma null_stop_price_lookup :
  null_stop_price !! "stop_price"%string = Some VNone.
Proof. by vm_compute. Qed.

Lemma from_dict_null_stop_price : (from_dict null_stop_price).2 = Ok signal.
Proof. by vm_compute. Qed.

Lemma None_entry_dropped_witness :
  getattr signal "stop_price" = Some VNone
  /\ to_dict signal !! "stop_price"%string = None.
Proof.
  exact (None_entry_dropped null_stop_price signal "stop_price"
           from_dict_null_stop_price null_stop_price_lookup).
Defined.
